(** * Heliospheric constellation: separations, backmapping and aggregation

    Shallow embedding of [HeliosphericConstellation] from
    [src/al1ssc_tools/orbit_tool/orbit_plotter_2D.py].

    Numbers.  The Python code computes on binary64 floats.  They are
    embedded as exact rationals ([Q]): every literal keeps its decimal
    value, every operation is the exact one, and rounding is left out.
    Orderings are the ones of [Q]; equalities between computed numbers
    are stated with [==].

    Effects.  The constructor calls two collaborators (the body catalogue
    and the ephemeris service), prints diagnostics and may raise.  These
    are embedded with a small trace-and-exception monad [io]: a
    computation yields the list of events it performed together with its
    outcome. *)

From Stdlib Require Import QArith Qround Qabs Lqa ZArith List String Ascii Bool Lia.
Import ListNotations.

Open Scope Q_scope.

(** ** Exact arithmetic helpers *)

Module Num.

(** [x > y] and [x < y] as the boolean tests of an [if]. *)
Definition gtb (x y : Q) : bool := negb (Qle_bool x y).
Definition ltb (x y : Q) : bool := negb (Qle_bool y x).

(** [math.pi]: the binary64 constant 0x400921FB54442D18, as the
    rational it denotes. *)
Definition math_pi : Q := 884279719003555 # 281474976710656.

(** [math.radians(x)] is [x * (pi / 180)], [math.degrees(x)] is
    [x * (180 / pi)]. *)
Definition math_radians (x : Q) : Q := x * (math_pi / 180).
Definition math_degrees (x : Q) : Q := x * (180 / math_pi).

(** [astropy.constants.au.value]: the astronomical unit in metres
    (exact by definition, IAU 2012 resolution B2). *)
Definition const_au_value : Q := 149597870700.

End Num.

(** ** Exceptions, events and the [io] monad *)

(** The exception classes the constructor can meet.  [OtherError]
    stands for any exception class that is none of the named ones. *)
Inductive exn : Type :=
| ValueError
| IndexError
| DoesNotExist
| ZeroDivisionError
| OtherError.

Inductive outcome (A : Type) : Type :=
| Ok (a : A)
| Raise (e : exn).
Arguments Ok {A} a.
Arguments Raise {A} e.

(** What the constructor does to the outside world, in order. *)
Inductive event : Type :=
| EvHorizons (body_id : Z) (date : string)   (* get_horizons_coord(id, date, "id") *)
| EvCatalog (name : string)                  (* Body.objects.get(name=...) *)
| EvPrint (line : string).                   (* print(...) *)

Definition io (A : Type) : Type := (list event * outcome A)%type.

Definition ret {A} (a : A) : io A := ([], Ok a).
Definition raise {A} (e : exn) : io A := ([], Raise e).
Definition emit (ev : event) : io unit := ([ev], Ok tt).

Definition bind {A B} (m : io A) (k : A -> io B) : io B :=
  match m with
  | (t, Ok a) => let (t', r) := k a in (t ++ t', r)
  | (t, Raise e) => (t, Raise e)
  end.

Notation "x <- m ;; k" := (bind m (fun x => k))
  (at level 61, m at next level, right associativity).
Notation "m ;;; k" := (bind m (fun _ => k))
  (at level 61, right associativity).

Definition trace {A} (m : io A) : list event := fst m.
Definition result {A} (m : io A) : outcome A := snd m.

(** ** Data *)

(** A coordinate in the Carrington frame: [pos.lon.value],
    [pos.lat.value] (degrees) and [pos.radius.value] (AU). *)
Record SkyCoord : Type := mkSkyCoord {
  lon : Q;
  lat : Q;
  radius : Q
}.

(** A row of the body catalogue ([models.Body]). *)
Record Body : Type := mkBody {
  body_id : Z;
  name : string;
  color : string
}.

(** ** backmapping (lines 168-212) *)

(** [AU = const.au.value / 1000  # km] *)
Definition AU : Q := Num.const_au_value / 1000.

(** [omega = math.radians(360.0 / (25.38 * 24 * 60 * 60))] *)
Definition omega : Q := Num.math_radians (360 / (25.38 * 24 * 60 * 60)).

(** [tt = dist * AU / vsw] *)
Definition travel_time (dist vsw : Q) : Q := dist * AU / vsw.

(** [alpha = math.degrees(omega * tt)] *)
Definition backmapping_alpha (dist vsw : Q) : Q :=
  Num.math_degrees (omega * travel_time dist vsw).

(** The two [if] statements on [sep] (lines 204-208). *)
Definition backmapping_wrap (sep : Q) : Q :=
  let sep := if Num.gtb sep 180 then sep - 360 else sep in
  let sep := if Num.ltb sep (-180) then 360 - Qabs sep else sep in
  sep.

(** The body of [backmapping] once the division is known to be defined.
    [sep] is [None] where the code sets it to [np.nan]. *)
Definition backmapping_value (body_pos : SkyCoord) (date : string)
    (reference_long : option Q) (vsw : Q) : option Q * Q :=
  let pos := body_pos in
  let lon := lon pos in
  let dist := radius pos in
  let alpha := backmapping_alpha dist vsw in
  let sep :=
    match reference_long with
    | Some reference_long => Some (backmapping_wrap ((lon + alpha) - reference_long))
    | None => None
    end in
  (sep, alpha).

(** [backmapping(self, body_pos, date, reference_long, vsw=400)].
    [dist * AU / vsw] has no value for [vsw = 0]: Python's division
    raises [ZeroDivisionError] there, which is how the embedding leaves
    the function (NumPy scalars would give a non-finite number instead;
    no rational stands for it). *)
Definition backmapping (body_pos : SkyCoord) (date : string)
    (reference_long : option Q) (vsw : Q) : io (option Q * Q) :=
  if Qeq_bool vsw 0 then raise ZeroDivisionError
  else ret (backmapping_value body_pos date reference_long vsw).

(** ** The constructor (lines 48-166) *)

(** The elements of the per-body Python lists kept in [bodies_dict]:
    [body_id], [name], [color], [pos], [vsw], [sep] (and [sep] once more
    when a reference longitude is given).  A float is [None] where the
    code holds [np.nan]. *)
Inductive value : Type :=
| VInt (z : Z)
| VStr (s : string)
| VCoord (p : SkyCoord)
| VFloat (x : option Q).

(** A Python [dict] with string keys: insertion-ordered, one binding
    per key. *)
Definition dict (V : Type) : Type := list (string * V).

(** [d[k] = v]: an existing key keeps its place and takes the new
    value, a new key goes last. *)
Fixpoint dict_set {V} (k : string) (v : V) (d : dict V) : dict V :=
  match d with
  | [] => [(k, v)]
  | (k', v') :: d' =>
      if String.eqb k k' then (k, v) :: d' else (k', v') :: dict_set k v d'
  end.

(** [d[k].append(x)] on a dict of lists. *)
Fixpoint dict_append {V} (k : string) (x : V) (d : dict (list V)) : dict (list V) :=
  match d with
  | [] => []
  | (k', l) :: d' =>
      if String.eqb k k' then (k', l ++ [x]) :: d' else (k', l) :: dict_append k x d'
  end.

(** [del d[k]]. *)
Fixpoint dict_del {V} (k : string) (d : dict V) : dict V :=
  match d with
  | [] => []
  | (k', v') :: d' =>
      if String.eqb k k' then d' else (k', v') :: dict_del k d'
  end.

Definition dict_keys {V} (d : dict V) : list string := map fst d.

(** The local lists of [__init__] (lines 70-80). *)
Record locals : Type := mkLocals {
  bodies_dict : dict (list value);
  body_lon_list : list Q;
  body_lat_list : list Q;
  body_dist_list : list Q;
  longsep_E_list : list Q;
  latsep_E_list : list Q;
  body_vsw_list : list Q;
  footp_long_list : list Q;
  longsep_list : list Q;
  latsep_list : list Q;
  footp_longsep_list : list (option Q)
}.

Definition locals0 : locals :=
  mkLocals [] [] [] [] [] [] [] [] [] [] [].

(** [np.around]: to the nearest integer, ties to the even one. *)
Definition rint (x : Q) : Z :=
  let f := Qfloor x in
  let d := x - inject_Z f in
  if Num.ltb d (1 # 2) then f
  else if Num.gtb d (1 # 2) then (f + 1)%Z
  else if Z.even f then f else (f + 1)%Z.

Definition np_around (l : list Q) : list Q :=
  map (fun x => inject_Z (rint x)) l.

(** [np.around(l, 2)] *)
Definition np_around2 (l : list Q) : list Q :=
  map (fun x => inject_Z (rint (x * 100)) / 100) l.

(** [np.max]: raises [ValueError] on an empty sequence ("zero-size
    array to reduction operation maximum which has no identity"). *)
Definition np_max (l : list Q) : io Q :=
  match l with
  | [] => raise ValueError
  | x :: l' => ret (fold_left (fun m y => if Qle_bool m y then y else m) l' x)
  end.

(** The coordinate table, column by column. *)
Record DataFrame : Type := mkDataFrame {
  col_Body : list string;
  col_Longitude : list Q;
  col_Latitude : list Q;
  col_Distance : list Q;
  col_longsep_E : list Q;
  col_latsep_E : list Q
}.

(** [pd.DataFrame({...})]: columns of unequal length are refused with
    [ValueError] ("All arrays must be of the same length"). *)
Definition pd_DataFrame (c0 : list string) (c1 c2 c3 c4 c5 : list Q) : io DataFrame :=
  let n := List.length c0 in
  if (List.length c1 =? n)%nat && (List.length c2 =? n)%nat && (List.length c3 =? n)%nat
     && (List.length c4 =? n)%nat && (List.length c5 =? n)%nat
  then ret (mkDataFrame c0 c1 c2 c3 c4 c5)
  else raise ValueError.

(** The object [__init__] leaves behind. *)
Record HeliosphericConstellation : Type := mkConstellation {
  date : string;
  reference_long : option Q;
  reference_lat : option Q;
  pos_E : SkyCoord;
  body_dict : dict (list value);
  max_dist : Q;
  coord_table : DataFrame
}.

(** A collaborator's answer, lifted into [io]. *)
Definition call {A} (ev : event) (r : outcome A) : io A :=
  emit ev ;;;
  match r with
  | Ok a => ret a
  | Raise e => raise e
  end.

(** [l[i]] for [0 <= i]: [IndexError] past the end. *)
Definition getitem {A} (l : list A) (i : nat) : io A :=
  match nth_error l i with
  | Some x => ret x
  | None => raise IndexError
  end.

(** [if x > 180: x = x - 360.0] (lines 97-98 and 122-123). *)
Definition wrap_gt180 (x : Q) : Q :=
  if Num.gtb x 180 then x - 360 else x.

(** [if body_footp_long > 360: body_footp_long = body_footp_long - 360]
    (lines 115-116). *)
Definition wrap_gt360 (x : Q) : Q :=
  if Num.gtb x 360 then x - 360 else x.

Definition quote : string := String (ascii_of_nat 34) EmptyString.

(** The diagnostic of the [except] branch (lines 133-138). *)
Definition no_ephemeris_message (body_name date : string) : string :=
  ("!!! No ephemeris for target " ++ quote ++ body_name ++ quote
     ++ " for date " ++ date)%string.

(** [[body.body_id, body.name, body.color]] (line 84). *)
Definition fresh_entry (body : Body) : list value :=
  [VInt (body_id body); VStr (name body); VStr (color body)].

Section Constructor.

(** The collaborators: [Body.objects.get(name=...)] and
    [get_horizons_coord(id, date, "id")] followed by the transform to
    the Carrington frame.  Each either answers or raises. *)
Variable Body_objects_get : string -> outcome Body.
Variable get_horizons_coord : Z -> string -> outcome SkyCoord.

(** The arguments of [__init__] that the loop reads. *)
Variable date0 : string.
Variable reference_long0 : option Q.
Variable reference_lat0 : option Q.
Variable pos_E0 : SkyCoord.
Variable vsw_list : list Q.

(** The updates of the [try] block after the ephemeris lookup
    (lines 93-130), in the order of the source, given the speed read
    at line 94 ([vsw]), the one read at line 107 ([vsw107]) and the
    pair returned by [backmapping] at line 109. *)
Definition store_body (body_name : string) (pos : SkyCoord)
    (vsw vsw107 : Q) (sa : option Q * Q) (st : locals) : locals :=
  let d := dict_append body_name (VCoord pos) (bodies_dict st) in
  let d := dict_append body_name (VFloat (Some vsw)) d in
  let longsep_E := wrap_gt180 (lon pos - lon pos_E0) in
  let latsep_E := lat pos - lat pos_E0 in
  let (sep, alpha) := sa in
  let d := dict_append body_name (VFloat sep) d in
  let body_footp_long := wrap_gt360 (lon pos + alpha) in
  let st1 :=
    mkLocals d
      (body_lon_list st ++ [lon pos])
      (body_lat_list st ++ [lat pos])
      (body_dist_list st ++ [radius pos])
      (longsep_E_list st ++ [longsep_E])
      (latsep_E_list st ++ [latsep_E])
      (body_vsw_list st ++ [vsw107])
      (footp_long_list st ++ [body_footp_long])
      (longsep_list st)
      (latsep_list st)
      (footp_longsep_list st) in
  let st2 :=
    match reference_long0 with
    | Some rl =>
        let long_sep := wrap_gt180 (lon pos - rl) in
        mkLocals (dict_append body_name (VFloat sep) (bodies_dict st1))
          (body_lon_list st1) (body_lat_list st1) (body_dist_list st1)
          (longsep_E_list st1) (latsep_E_list st1) (body_vsw_list st1)
          (footp_long_list st1)
          (longsep_list st1 ++ [long_sep])
          (latsep_list st1)
          (footp_longsep_list st1 ++ [sep])
    | None => st1
    end in
  let st3 :=
    match reference_lat0 with
    | Some rl =>
        let lat_sep := lat pos - rl in
        mkLocals (bodies_dict st2)
          (body_lon_list st2) (body_lat_list st2) (body_dist_list st2)
          (longsep_E_list st2) (latsep_E_list st2) (body_vsw_list st2)
          (footp_long_list st2)
          (longsep_list st2)
          (latsep_list st2 ++ [lat_sep])
          (footp_longsep_list st2)
    | None => st2
    end in
  st3.

(** The [try] block after the ephemeris lookup.  What can raise in
    it is [vsw_list[i]] (three times) and the call of [backmapping];
    none raises [ValueError], so the exception leaves [__init__] and
    the locals are gone with it: the updates are gathered in
    [store_body]. *)
Definition record_body (i : nat) (body_name : string) (pos : SkyCoord)
    (st : locals) : io locals :=
  vsw94 <- getitem vsw_list i ;;
  vsw107 <- getitem vsw_list i ;;
  vsw110 <- getitem vsw_list i ;;
  sa <- backmapping pos date0 reference_long0 vsw110 ;;
  ret (store_body body_name pos vsw94 vsw107 sa st).

Definition with_bodies_dict (d : dict (list value)) (st : locals) : locals :=
  mkLocals d
    (body_lon_list st) (body_lat_list st) (body_dist_list st)
    (longsep_E_list st) (latsep_E_list st) (body_vsw_list st)
    (footp_long_list st) (longsep_list st) (latsep_list st)
    (footp_longsep_list st).

(** The [except ValueError] branch (lines 131-139). *)
Definition skip_body (body_name : string) (st : locals) : io locals :=
  emit (EvPrint EmptyString) ;;;
  emit (EvPrint (no_ephemeris_message body_name date0)) ;;;
  ret (with_bodies_dict (dict_del body_name (bodies_dict st)) st).

(** One turn of [for i, body_name in enumerate(body_list)].  The
    ephemeris lookup is the one statement of the [try] block that
    can raise [ValueError]. *)
Definition loop_body (i : nat) (body_name : string) (st : locals) : io locals :=
  body <- call (EvCatalog body_name) (Body_objects_get body_name) ;;
  let st :=
    with_bodies_dict
      (dict_set body_name (fresh_entry body) (bodies_dict st)) st in
  pos_or_exn <- (emit (EvHorizons (body_id body) date0) ;;;
                 ret (get_horizons_coord (body_id body) date0)) ;;
  match pos_or_exn with
  | Ok pos => record_body i body_name pos st
  | Raise ValueError => skip_body body_name st
  | Raise e => raise e
  end.

Fixpoint loop (i : nat) (body_list : list string) (st : locals) : io locals :=
  match body_list with
  | [] => ret st
  | body_name :: rest =>
      st' <- loop_body i body_name st ;;
      loop (S i) rest st'
  end.

End Constructor.

(** [if len(vsw_list) == 0: vsw_list = np.zeros(len(body_list)) + 400]
    (lines 67-68). *)
Definition default_vsw_list (body_list : list string) (vsw_list : list Q) : list Q :=
  if (List.length vsw_list =? 0)%nat then repeat 400 (List.length body_list)
  else vsw_list.

(** [HeliosphericConstellation.__init__(date, body_list, vsw_list,
    reference_long, reference_lat)].  The locals at the end of the loop
    are returned next to the object, so that statements about the lists
    that never leave [__init__] can be made. *)
Definition __init__
    (Body_objects_get : string -> outcome Body)
    (get_horizons_coord : Z -> string -> outcome SkyCoord)
    (date : string) (body_list : list string) (vsw_list : list Q)
    (reference_long reference_lat : option Q)
    : io (HeliosphericConstellation * locals) :=
  pos_E <- call (EvHorizons 399 date) (get_horizons_coord 399%Z date) ;;
  let vsw_list := default_vsw_list body_list vsw_list in
  st <- loop Body_objects_get get_horizons_coord date reference_long reference_lat
          pos_E vsw_list 0 body_list locals0 ;;
  max_dist <- np_max (body_dist_list st) ;;
  coord_table <-
    pd_DataFrame (dict_keys (bodies_dict st))
      (np_around (body_lon_list st))
      (np_around (body_lat_list st))
      (np_around2 (body_dist_list st))
      (np_around (longsep_E_list st))
      (np_around (latsep_E_list st)) ;;
  ret (mkConstellation date reference_long reference_lat pos_E
         (bodies_dict st) max_dist coord_table, st).

(** ** plot: the computed quantities (lines 214-397) *)

(** [np.deg2rad(x)] and [np.radians(x)] are [x * (pi / 180)],
    [np.degrees(x)] is [x * (180 / pi)]. *)
Definition np_deg2rad (x : Q) : Q := x * (Num.math_pi / 180).
Definition np_radians (x : Q) : Q := x * (Num.math_pi / 180).
Definition np_degrees (x : Q) : Q := x * (180 / Num.math_pi).

(** [np.arange(start, stop, step)] for a positive [step]: the values
    [start + k * step] for [k] from 0 up to, and without,
    [ceil((stop - start) / step)]; empty when [stop <= start]. *)
Definition np_arange (start stop step : Q) : list Q :=
  map (fun k => start + inject_Z (Z.of_nat k) * step)
      (seq 0 (Z.to_nat (Qceiling ((stop - start) / step)))).

(** [r = np.arange(0.007, self.max_dist + 0.3, 0.001)] (line 244). *)
Definition plot_r (max_dist : Q) : list Q :=
  np_arange 0.007 (max_dist + 0.3) 0.001.

(** [omega = np.radians(360.0 / (25.38 * 24 * 60 * 60))] (lines 245-247). *)
Definition plot_omega : Q := np_radians (360 / (25.38 * 24 * 60 * 60)).

(** One sample of
    [alpha_body = np.deg2rad(body_long) + omega / (body_vsw / AU) * (dist_body - r)]
    (lines 282-284), for a non-zero [body_vsw]. *)
Definition alpha_body (body_long dist_body body_vsw r : Q) : Q :=
  np_deg2rad body_long + plot_omega / (body_vsw / AU) * (dist_body - r).

(** [delta_ref = self.reference_long; if delta_ref < 0.0: delta_ref = delta_ref + 360.0]
    (lines 288-290). *)
Definition delta_ref (reference_long : Q) : Q :=
  if Num.ltb reference_long 0 then reference_long + 360 else reference_long.

(** One sample of [alpha_ref] (lines 291-295), for a non-zero
    [reference_vsw]. *)
Definition alpha_ref (delta_ref reference_vsw dist_e r : Q) : Q :=
  np_deg2rad delta_ref
  + plot_omega / (reference_vsw / AU) * (dist_e / AU - r)
  - (plot_omega / (reference_vsw / AU) * (dist_e / AU)).

(** [round(x, 6)]: to six decimals, ties to even. *)
Definition round6 (x : Q) : Q := inject_Z (rint (x * 1000000)) / 1000000.

(** [min([a, b])]: the first of the smallest elements. *)
Definition min2 (a b : Q) : Q := if Num.ltb b a then b else a.

(** [arrow_dist = min([round(self.max_dist / 3.2, 6), 2.0])] (line 296). *)
Definition arrow_dist (max_dist : Q) : Q := min2 (round6 (max_dist / 3.2)) 2.

(** The radial grid lines (lines 342-350): [Some] of the radii handed
    to [ax.set_rgrids], [None] when the call is not made. *)
Definition rgrids (max_dist : Q) : option (list Q) :=
  if Num.ltb max_dist 2 then Some (tl (np_arange 0 (max_dist + 0.29) 0.5))
  else if Num.ltb max_dist 10 then Some (tl (np_arange 0 (max_dist + 0.29) 1))
  else None.

(** [s.replace(old, new)] for one-character [old] and [new]. *)
Fixpoint str_replace (old new : ascii) (s : string) : string :=
  match s with
  | EmptyString => EmptyString
  | String c s' =>
      String (if Ascii.eqb c old then new else c) (str_replace old new s')
  end.

Definition newline : string := String (ascii_of_nat 10) EmptyString.

(** [f"At {self.date.replace('T', ' ')} UTC\n"] (lines 352-354). *)
Definition plot_title (date : string) : string :=
  ("At " ++ str_replace "T" " " date ++ " UTC" ++ newline)%string.

(** ** plot: the calls that carry computed values (lines 214-397)

    [plot] draws with matplotlib and returns the encoded image.  The
    embedding keeps, in order, the calls whose arguments [plot]
    computes, and returns them in place of the image; the purely
    cosmetic calls (figure creation, legends, tick parameters, layout,
    encoding) are left out.  A list of angles is [None] where NumPy
    yields values that are not finite. *)
Inductive artist : Type :=
| Marker (theta r : Q) (color label : value)             (* ax.plot(theta, r, "s", ...) *)
| SunBodyLine (theta r_from r_to : Q) (color : value)    (* ax.plot([theta, theta], [0.01, r], ":") *)
| Spiral (thetas : option (list Q)) (rs : list Q) (color : value)  (* ax.plot(alpha_body, r) *)
| RefArrow (theta : option Q) (r_from dtheta dr : Q)     (* plt.arrow(alpha_ref[0], 0.01, 0, arrow_dist) *)
| RefSpiral (thetas : option (list Q)) (rs : list Q) (reference_vsw : Q)  (* ax.plot(alpha_ref, r, "--k") *)
| RLabelPosition (deg : Q)                               (* ax.set_rlabel_position *)
| ThetaOffset (rad : Q)                                  (* ax.set_theta_offset *)
| RMax (r : Q)                                           (* ax.set_rmax *)
| RMin (r : Q)                                           (* ax.set_rmin *)
| EnclosingCircle (radius : Q)                           (* plt.Circle((0, 0), radius) *)
| RGrids (radii : list Q) (angle : Q)                    (* ax.set_rgrids *)
| Title (s : string)                                     (* ax.set_title *)
| PolarTwin (theta_offset rmax : Q).                     (* self._polar_twin: add_axes, set_rmax *)

Definition obind {A B} (m : outcome A) (k : A -> outcome B) : outcome B :=
  match m with
  | Ok a => k a
  | Raise e => Raise e
  end.

Notation "x <~ m ;; k" := (obind m (fun x => k))
  (at level 61, m at next level, right associativity).

(** [entry[k]] on one of the lists of [body_dict]. *)
Definition entry_at (entry : list value) (k : nat) : outcome value :=
  match nth_error entry k with
  | Some v => Ok v
  | None => Raise IndexError
  end.

(** A value used as a number: a float, an integer, or a [TypeError]. *)
Definition as_number (v : value) : outcome (option Q) :=
  match v with
  | VFloat x => Ok x
  | VInt z => Ok (Some (inject_Z z))
  | _ => Raise OtherError
  end.

(** One turn of [for body_name in self.body_dict] (lines 249-285) on
    the list [self.body_dict[body_name]].  [body_pos.radius.value] on
    anything but a coordinate is an [AttributeError]; the division of
    line 280 follows the convention of [backmapping]. *)
Definition plot_body (plot_spirals plot_sun_body_line : bool) (r : list Q)
    (entry : list value) : outcome (list artist) :=
  body_lab <~ entry_at entry 1 ;;
  body_color <~ entry_at entry 2 ;;
  body_pos <~ entry_at entry 3 ;;
  body_vsw <~ entry_at entry 4 ;;
  match body_pos with
  | VCoord pos =>
      let dist_body := radius pos in
      let body_long := lon pos in
      let marker := [Marker (np_deg2rad body_long) dist_body body_color body_lab] in
      let line :=
        if plot_sun_body_line
        then [SunBodyLine (np_deg2rad body_long) 0.01 dist_body body_color]
        else [] in
      spiral <~ (if plot_spirals then
                   vsw <~ as_number body_vsw ;;
                   match vsw with
                   | Some v =>
                       if Qeq_bool v 0 then Raise ZeroDivisionError
                       else Ok [Spiral (Some (map (alpha_body body_long dist_body v) r))
                                  r body_color]
                   | None => Ok [Spiral None r body_color]
                   end
                 else Ok []) ;;
      Ok (marker ++ line ++ spiral)
  | _ => Raise OtherError
  end.

(** The loop over [self.body_dict], whose keys are pairwise distinct:
    going through the bindings is going through the keys and looking
    each one up. *)
Fixpoint plot_bodies (plot_spirals plot_sun_body_line : bool) (r : list Q)
    (d : dict (list value)) : outcome (list artist) :=
  match d with
  | [] => Ok []
  | (_, entry) :: d' =>
      a <~ plot_body plot_spirals plot_sun_body_line r entry ;;
      rest <~ plot_bodies plot_spirals plot_sun_body_line r d' ;;
      Ok (a ++ rest)
  end.

(** The reference arrow and field line (lines 287-317).  [dist_e] is
    bound by the loop over the bodies: with no body it is an unbound
    local variable. *)
Definition plot_reference (self : HeliosphericConstellation) (plot_spirals : bool)
    (reference_vsw : Q) (r : list Q) : outcome (list artist) :=
  match reference_long self with
  | None => Ok []
  | Some rl =>
      match body_dict self with
      | [] => Raise OtherError
      | _ :: _ =>
          let dist_e := radius (pos_E self) in
          let delta := delta_ref rl in
          let finite := negb (Qeq_bool reference_vsw 0) in
          let alpha_ref_r :=
            if finite then Some (map (alpha_ref delta reference_vsw dist_e) r)
            else None in
          let arrow_dist := arrow_dist (max_dist self) in
          first <~ match r with
                   | [] => Raise IndexError
                   | r0 :: _ =>
                       Ok (if finite then Some (alpha_ref delta reference_vsw dist_e r0)
                           else None)
                   end ;;
          Ok (RefArrow first 0.01 0 arrow_dist
                :: (if plot_spirals then [RefSpiral alpha_ref_r r reference_vsw] else []))
      end
  end.

(** The calibration of the axes (lines 335-354 and 359-370).  [E_long]
    is bound by the loop over the bodies as well. *)
Definition plot_axes (self : HeliosphericConstellation)
    (show_earth_centered_coord : bool) : outcome (list artist) :=
  match body_dict self with
  | [] => Raise OtherError
  | _ :: _ =>
      let E_long := lon (pos_E self) in
      Ok ([RLabelPosition (E_long + 120);
           ThetaOffset (np_deg2rad (270 - E_long));
           RMax (max_dist self + 0.3);
           RMin 0.01;
           EnclosingCircle (max_dist self + 0.29)]
          ++ match rgrids (max_dist self) with
             | Some radii => [RGrids radii 22.5]
             | None => []
             end
          ++ [Title (plot_title (date self))]
          ++ (if show_earth_centered_coord
              then [PolarTwin E_long (max_dist self + 0.3)]
              else []))
  end.

(** [plot(self, plot_spirals, plot_sun_body_line,
    show_earth_centered_coord, reference_vsw)]. *)
Definition plot (self : HeliosphericConstellation)
    (plot_spirals plot_sun_body_line show_earth_centered_coord : bool)
    (reference_vsw : Q) : outcome (list artist) :=
  let r := plot_r (max_dist self) in
  bodies <~ plot_bodies plot_spirals plot_sun_body_line r (body_dict self) ;;
  reference <~ plot_reference self plot_spirals reference_vsw r ;;
  axes <~ plot_axes self show_earth_centered_coord ;;
  Ok (bodies ++ reference ++ axes).

(** ** Vocabulary of the statements *)

(** How a name of [body_list] fares with the two collaborators. *)
Inductive status : Type :=
| Unknown (e : exn)                   (* the catalogue raises [e] *)
| NoEphemeris                         (* the ephemeris lookup raises [ValueError] *)
| Broken (e : exn)                    (* it raises something else *)
| Resolved (b : Body) (p : SkyCoord). (* both answer *)

Definition status_of (cat : string -> outcome Body)
    (eph : Z -> string -> outcome SkyCoord) (date : string) (n : string) : status :=
  match cat n with
  | Raise e => Unknown e
  | Ok b =>
      match eph (body_id b) date with
      | Ok p => Resolved b p
      | Raise ValueError => NoEphemeris
      | Raise e => Broken e
      end
  end.

Definition is_resolved (s : status) : bool :=
  match s with Resolved _ _ => true | _ => false end.

Definition is_no_ephemeris (s : status) : bool :=
  match s with NoEphemeris => true | _ => false end.

(** The resolved bodies of a list, each with its index in the list
    (counted from [i]), its name and its position. *)
Fixpoint resolved (cat : string -> outcome Body)
    (eph : Z -> string -> outcome SkyCoord) (date : string)
    (i : nat) (body_list : list string) : list (nat * string * SkyCoord) :=
  match body_list with
  | [] => []
  | n :: rest =>
      match status_of cat eph date n with
      | Resolved _ p => (i, n, p) :: resolved cat eph date (S i) rest
      | _ => resolved cat eph date (S i) rest
      end
  end.

(** [st'] is [st] with one row appended per element of [R], the speed
    of a row being read in [vl] at the row's index. *)
Definition extends (pE : SkyCoord) (vl : list Q) (st st' : locals)
    (R : list (nat * string * SkyCoord)) : Prop :=
  dict_keys (bodies_dict st') = dict_keys (bodies_dict st) ++ map (fun r => snd (fst r)) R
  /\ body_lon_list st' = body_lon_list st ++ map (fun r => lon (snd r)) R
  /\ body_lat_list st' = body_lat_list st ++ map (fun r => lat (snd r)) R
  /\ body_dist_list st' = body_dist_list st ++ map (fun r => radius (snd r)) R
  /\ longsep_E_list st'
     = longsep_E_list st ++ map (fun r => wrap_gt180 (lon (snd r) - lon pE)) R
  /\ latsep_E_list st' = latsep_E_list st ++ map (fun r => lat (snd r) - lat pE) R
  /\ body_vsw_list st' = body_vsw_list st ++ map (fun r => nth (fst (fst r)) vl 0) R
  /\ footp_long_list st'
     = footp_long_list st
       ++ map (fun r => wrap_gt360
                          (lon (snd r)
                           + backmapping_alpha (radius (snd r)) (nth (fst (fst r)) vl 0))) R.

Definition nonzero (v : Q) : bool := negb (Qeq_bool v 0).

(** The speeds a run can use without leaving the loop: none given, or
    one per body and none of them zero. *)
Definition speeds_ok (body_list : list string) (vsw_list : list Q) : bool :=
  (List.length vsw_list =? 0)%nat
  || ((List.length body_list <=? List.length vsw_list)%nat
      && forallb nonzero vsw_list).

Definition recoverable (s : status) : bool :=
  is_resolved s || is_no_ephemeris s.

(** The names asked of the catalogue and the identifiers asked of the
    ephemeris service, in the order of a trace. *)
Definition catalog_queries (t : list event) : list string :=
  flat_map (fun ev => match ev with EvCatalog n => [n] | _ => [] end) t.

Definition horizons_queries (t : list event) : list Z :=
  flat_map (fun ev => match ev with EvHorizons id _ => [id] | _ => [] end) t.


(** The list kept in [body_dict] for a resolved body. *)
Definition entry_of (b : Body) (p : SkyCoord) (vsw : Q) (sep : option Q)
    (rl : option Q) : list value :=
  fresh_entry b ++ [VCoord p; VFloat (Some vsw); VFloat sep]
  ++ match rl with Some _ => [VFloat sep] | None => [] end.


(** The binding of [body_dict] for a resolved body of index [i]: its
    speed is read in [vl] at [i], its separation is the one
    [backmapping] computes. *)
Definition binding_of (cat : string -> outcome Body) (date : string)
    (rl : option Q) (vl : list Q) (r : nat * string * SkyCoord)
    : string * list value :=
  let i := fst (fst r) in
  let n := snd (fst r) in
  let p := snd r in
  let v := nth i vl 0 in
  (n, match cat n with
      | Ok b => entry_of b p v (fst (backmapping_value p date rl v)) rl
      | Raise _ => []
      end).



(** The rotation rate in degrees per second, [360 / (25.38 days)]. *)
Definition rate_deg_per_s : Q := 360 / (25.38 * 24 * 60 * 60).

(** ** A concrete scenario

    Three catalogued bodies and an ephemeris service for one date:
    Earth at Carrington longitude 350, [A] at longitude 10 and 1 AU,
    [B] at longitude 200 and 9.5 AU, and [X] without ephemeris.  Any
    other name is unknown to the catalogue. *)
Module Scenario.

Open Scope string_scope.

Definition date : string := "2020-03-22 12:30".

Definition catalog (n : string) : outcome Body :=
  if String.eqb n "A" then Ok (mkBody 1 "A" "red")
  else if String.eqb n "B" then Ok (mkBody 2 "B" "blue")
  else if String.eqb n "X" then Ok (mkBody 3 "X" "grey")
  else Raise DoesNotExist.

Definition ephemeris (id : Z) (d : string) : outcome SkyCoord :=
  if Z.eqb id 399 then Ok (mkSkyCoord 350 0 1)
  else if Z.eqb id 1 then Ok (mkSkyCoord 10 5 1)
  else if Z.eqb id 2 then Ok (mkSkyCoord 200 (-3) 9.5)
  else Raise ValueError.

(** A service that answers for no body but Earth. *)
Definition earth_only (id : Z) (d : string) : outcome SkyCoord :=
  if Z.eqb id 399 then Ok (mkSkyCoord 350 0 1) else Raise ValueError.

(** A service that breaks down on body 2 with an exception that is
    not a [ValueError]. *)
Definition broken (id : Z) (d : string) : outcome SkyCoord :=
  if Z.eqb id 2 then Raise OtherError else ephemeris id d.

End Scenario.

(** A second ephemeris service, for bodies of the inner heliosphere:
    as in [Scenario], with [B] at 1.5 AU. *)
Module Inner.

Definition ephemeris (id : Z) (d : string) : outcome SkyCoord :=
  if Z.eqb id 399 then Ok (mkSkyCoord 350 0 1)
  else if Z.eqb id 1 then Ok (mkSkyCoord 10 5 1)
  else if Z.eqb id 2 then Ok (mkSkyCoord 200 (-3) 1.5)
  else Raise ValueError.

End Inner.

(** * Properties *)

(** ** Comparisons and angle conversions *)

Module NumFacts.

Lemma gtb_true x y : Num.gtb x y = true <-> y < x.
Proof.
  unfold Num.gtb. rewrite negb_true_iff. split; intro H.
  - apply Qnot_le_lt. intro L. apply Qle_bool_iff in L. congruence.
  - destruct (Qle_bool x y) eqn:E; [|reflexivity].
    apply Qle_bool_iff in E. lra.
Qed.

Lemma gtb_false x y : Num.gtb x y = false <-> x <= y.
Proof.
  unfold Num.gtb. rewrite negb_false_iff. apply Qle_bool_iff.
Qed.

Lemma ltb_true x y : Num.ltb x y = true <-> x < y.
Proof. unfold Num.ltb. apply (gtb_true y x). Qed.

Lemma ltb_false x y : Num.ltb x y = false <-> y <= x.
Proof. unfold Num.ltb. apply (gtb_false y x). Qed.

Lemma math_pi_pos : 0 < Num.math_pi.
Proof. reflexivity. Qed.

Lemma degrees_radians_scale (w t : Q) :
  Num.math_degrees (Num.math_radians w * t) == w * t.
Proof. unfold Num.math_degrees, Num.math_radians. field. discriminate. Qed.

End NumFacts.

(** Closed facts about rationals are settled by evaluation. *)
Ltac by_evaluation :=
  first [ reflexivity
        | vm_compute; reflexivity
        | vm_compute; discriminate ].

(** ** The backmapping angle *)

(** [math.degrees] undoes the [math.radians] inside [omega]. *)
Lemma backmapping_alpha_eq (dist vsw : Q) :
  backmapping_alpha dist vsw == rate_deg_per_s * (dist * AU / vsw).
Proof.
  unfold backmapping_alpha, omega, travel_time, rate_deg_per_s.
  apply NumFacts.degrees_radians_scale.
Qed.


Lemma AU_pos : 0 < AU.
Proof. reflexivity. Qed.

Lemma backmapping_defined (pos : SkyCoord) (d : string) (rl : option Q) (vsw : Q) :
  ~ vsw == 0 ->
  backmapping pos d rl vsw = ret (backmapping_value pos d rl vsw).
Proof.
  intro H. unfold backmapping.
  destruct (Qeq_bool vsw 0) eqn:E; [|reflexivity].
  apply Qeq_bool_iff in E. contradiction.
Qed.



(** ** The wrap rules *)

(** Below -180 the second [if] of [backmapping] adds 360:
    [360 - abs(sep)] is [sep + 360] for a negative [sep]. *)
Lemma backmapping_wrap_below (x : Q) :
  -540 <= x -> x < -180 -> backmapping_wrap x == x + 360.
Proof.
  intros Hlo Hx. unfold backmapping_wrap.
  assert (G : Num.gtb x 180 = false) by (apply NumFacts.gtb_false; lra).
  rewrite G.
  assert (L : Num.ltb x (-180) = true) by (apply NumFacts.ltb_true; exact Hx).
  rewrite L. rewrite Qabs_neg by lra. ring.
Qed.

(** A raw difference within one turn and a half of zero is brought
    into [-180, 180] by [backmapping]'s two tests. *)
Lemma backmapping_wrap_range (x : Q) :
  -540 <= x -> x <= 540 ->
  -180 <= backmapping_wrap x /\ backmapping_wrap x <= 180.
Proof.
  intros Hlo Hhi. unfold backmapping_wrap.
  destruct (Num.gtb x 180) eqn:G.
  - apply NumFacts.gtb_true in G.
    assert (L : Num.ltb (x - 360) (-180) = false) by (apply NumFacts.ltb_false; lra).
    rewrite L. lra.
  - apply NumFacts.gtb_false in G.
    destruct (Num.ltb x (-180)) eqn:L.
    + apply NumFacts.ltb_true in L. rewrite Qabs_neg by lra. lra.
    + apply NumFacts.ltb_false in L. lra.
Qed.

(** The one-sided test of the constructor leaves a difference that is
    not above 180 as it is. *)
Lemma wrap_gt180_le (x : Q) : x <= 180 -> wrap_gt180 x = x.
Proof.
  intro H. unfold wrap_gt180.
  assert (G : Num.gtb x 180 = false) by (apply NumFacts.gtb_false; exact H).
  now rewrite G.
Qed.

(** One subtraction of 360 is enough below two turns, the exact turn
    apart. *)
Lemma wrap_gt360_range (x : Q) :
  0 <= x -> x < 720 -> ~ x == 360 ->
  0 <= wrap_gt360 x /\ wrap_gt360 x < 360
  /\ (wrap_gt360 x == x \/ wrap_gt360 x == x - 360).
Proof.
  intros H0 H1 H2. unfold wrap_gt360.
  destruct (Num.gtb x 360) eqn:G.
  - apply NumFacts.gtb_true in G. repeat split; lra.
  - apply NumFacts.gtb_false in G.
    assert (L : x < 360).
    { destruct (Qlt_le_dec x 360) as [L|L]; [exact L|].
      exfalso. apply H2. lra. }
    repeat split; lra.
Qed.

(** ** Claims about [backmapping] *)

(** C10: the output of [backmapping] does not depend on its [date]
    argument: two calls that differ only in the date return the same
    pair [(sep, alpha)] (or leave the function the same way). *)
Theorem C10_backmapping_ignores_date :
  forall (body_pos : SkyCoord) (date1 date2 : string)
         (reference_long : option Q) (vsw : Q),
    backmapping body_pos date1 reference_long vsw
    = backmapping body_pos date2 reference_long vsw.
Proof.
  intros. unfold backmapping, backmapping_value. reflexivity.
Qed.



(** C2 as stated fails: at 1 AU and 400 km/s the angle returned by
    [backmapping] is more than 50 degrees away from 9.85. *)
Lemma C2_alpha_is_not_9_85 :
  exists sep alpha,
    result (backmapping (mkSkyCoord 0 0 1) Scenario.date None 400) = Ok (sep, alpha)
    /\ 50 < Qabs (alpha - 9.85).
Proof.
  do 2 eexists. split; [reflexivity|]. vm_compute. reflexivity.
Qed.

(** C2, amended: for a body at 1 AU and a wind speed of 400 km/s,
    [backmapping] returns [alpha = degrees(omega * tt)] with
    [omega = radians(360 / (25.38 * 24 * 60 * 60))] and
    [tt = 1 AU / 400 km/s], about 373,995 s; the angle is about 61.40
    degrees, whatever the longitude, latitude, date and reference. *)
Theorem C2_alpha_at_1AU_400kms :
  forall (l b : Q) (date : string) (rl : option Q),
    exists sep alpha,
      result (backmapping (mkSkyCoord l b 1) date rl 400) = Ok (sep, alpha)
      /\ alpha = Num.math_degrees (omega * travel_time 1 400)
      /\ omega = Num.math_radians (360 / (25.38 * 24 * 60 * 60))
      /\ travel_time 1 400 == 149597870.7 / 400
      /\ 373994 < travel_time 1 400 /\ travel_time 1 400 < 373995
      /\ 61.39 < alpha /\ alpha < 61.40.
Proof.
  intros l b date rl.
  exists (fst (backmapping_value (mkSkyCoord l b 1) date rl 400)).
  exists (backmapping_alpha 1 400).
  repeat split; vm_compute; reflexivity.
Qed.

(** ** Claims about the separations and the footpoint *)

(** C1: evaluation at Earth longitude 350 and body longitude 10, with
    the reference longitude at 350 as well.  The Earth-relative
    separation and the body-to-reference separation are both stored as
    -340, outside (-180, 180]: the constructor only tests [> 180].  The
    footpoint separation, which [backmapping] also tests against -180,
    is brought into range. *)
Theorem C1_constructor_separations_below_minus_180 :
  exists obj st e r f,
    result (__init__ Scenario.catalog Scenario.ephemeris Scenario.date
              ["A"%string] [] (Some 350) None) = Ok (obj, st)
    /\ longsep_E_list st = [e] /\ e == -340
    /\ longsep_list st = [r] /\ r == -340
    /\ col_longsep_E (coord_table obj) = [inject_Z (-340)]
    /\ footp_longsep_list st = [Some f] /\ -180 < f /\ f <= 180.
Proof.
  do 5 eexists.
  split; [vm_compute; reflexivity|].
  cbn [longsep_E_list longsep_list footp_longsep_list coord_table col_longsep_E].
  repeat split; by_evaluation.
Qed.

(** C6: evaluation at a body at longitude 200 and 9.5 AU with the
    default wind speed of 400 km/s.  [alpha] is positive, and the
    footpoint longitude stored by the constructor is above 360: one
    subtraction of 360 is all the code does. *)
Theorem C6_footpoint_above_360 :
  exists obj st v,
    result (__init__ Scenario.catalog Scenario.ephemeris Scenario.date
              ["B"%string] [] None None) = Ok (obj, st)
    /\ 0 <= backmapping_alpha 9.5 400
    /\ footp_long_list st = [v]
    /\ v == 200 + backmapping_alpha 9.5 400 - 360
    /\ 360 < v.
Proof.
  do 3 eexists.
  split; [vm_compute; reflexivity|].
  cbn [footp_long_list].
  repeat split; by_evaluation.
Qed.

(** ** The [io] monad *)

Lemma bind_ok {A B} (t : list event) (a : A) (k : A -> io B) :
  bind (t, Ok a) k = (t ++ trace (k a), result (k a)).
Proof. unfold bind, trace, result. destruct (k a); reflexivity. Qed.

Lemma bind_raise {A B} (t : list event) (e : exn) (k : A -> io B) :
  bind (t, Raise e) k = (t, Raise e).
Proof. reflexivity. Qed.

Lemma bind_ret {A B} (a : A) (k : A -> io B) : bind (ret a) k = k a.
Proof. unfold ret. rewrite bind_ok. destruct (k a); reflexivity. Qed.

Lemma bind_assoc {A B C} (m : io A) (f : A -> io B) (g : B -> io C) :
  bind (bind m f) g = bind m (fun a => bind (f a) g).
Proof.
  destruct m as [t [a|e]]; [|reflexivity].
  unfold bind. destruct (f a) as [t1 [b|e1]]; [|reflexivity].
  destruct (g b) as [t2 r]. now rewrite app_assoc.
Qed.

Lemma bind_ext {A B} (m : io A) (k1 k2 : A -> io B) :
  (forall a, k1 a = k2 a) -> bind m k1 = bind m k2.
Proof.
  intro H. destruct m as [t [a|e]]; [|reflexivity].
  unfold bind. now rewrite H.
Qed.

Lemma trace_bind {A B} (m : io A) (k : A -> io B) :
  exists t, trace (bind m k) = trace m ++ t.
Proof.
  destruct m as [t0 [a|e]].
  - rewrite bind_ok. eexists. reflexivity.
  - exists []. cbn [bind trace fst]. now rewrite app_nil_r.
Qed.

Lemma call_ok {A} (ev : event) (a : A) : call ev (Ok a) = ([ev], Ok a).
Proof. reflexivity. Qed.

Lemma call_raise {A} (ev : event) (e : exn) : call ev (@Raise A e) = ([ev], Raise e).
Proof. reflexivity. Qed.

Lemma bind_emit_ret {A B} (ev : event) (x : A) (k : A -> io B) :
  bind (bind (emit ev) (fun _ => ret x)) k = (ev :: trace (k x), result (k x)).
Proof. unfold bind, emit, ret, trace, result. destruct (k x); reflexivity. Qed.

Lemma pair_io {A} (m : io A) : m = (trace m, result m).
Proof. destruct m; reflexivity. Qed.

(** ** The dictionary *)

Lemma dict_keys_append {V} (k : string) (x : V) (d : dict (list V)) :
  dict_keys (dict_append k x d) = dict_keys d.
Proof.
  unfold dict_keys.
  induction d as [|[k' l] d IH]; [reflexivity|].
  cbn [dict_append]. destruct (String.eqb k k'); cbn [map fst].
  - reflexivity.
  - now rewrite IH.
Qed.

Lemma dict_keys_set_fresh {V} (k : string) (v : V) (d : dict V) :
  ~ In k (dict_keys d) -> dict_keys (dict_set k v d) = dict_keys d ++ [k].
Proof.
  unfold dict_keys.
  induction d as [|[k' v'] d IH]; intro H; [reflexivity|].
  cbn [dict_set]. cbn [map fst In] in H.
  destruct (String.eqb_spec k k') as [E|E].
  - exfalso. apply H. left. now symmetry.
  - cbn [map fst app]. f_equal. apply IH. tauto.
Qed.

Lemma dict_del_set_fresh {V} (k : string) (v : V) (d : dict V) :
  ~ In k (dict_keys d) -> dict_del k (dict_set k v d) = d.
Proof.
  unfold dict_keys.
  induction d as [|[k' v'] d IH]; intro H.
  - cbn. now rewrite String.eqb_refl.
  - cbn [dict_set]. cbn [map fst In] in H.
    destruct (String.eqb_spec k k') as [E|E].
    + exfalso. apply H. left. now symmetry.
    + cbn [dict_del]. destruct (String.eqb_spec k k') as [E'|_]; [contradiction|].
      f_equal. apply IH. tauto.
Qed.

(** ** One turn of the loop *)

Section LoopFacts.

Variable cat : string -> outcome Body.
Variable eph : Z -> string -> outcome SkyCoord.
Variable d : string.
Variable rl rlat : option Q.
Variable pE : SkyCoord.

Abbreviation turn := (loop_body cat eph d rl rlat pE).
Abbreviation run := (loop cat eph d rl rlat pE).
Abbreviation status_of' := (status_of cat eph d).

Lemma turn_unknown vl i n st e :
  status_of' n = Unknown e ->
  turn vl i n st = ([EvCatalog n], Raise e).
Proof.
  unfold status_of, loop_body. destruct (cat n) as [b|e'].
  - destruct (eph (body_id b) d) as [p|[]]; discriminate.
  - intros [= ->]. reflexivity.
Qed.

Lemma turn_broken vl i n st e :
  status_of' n = Broken e ->
  exists b, cat n = Ok b
    /\ turn vl i n st = ([EvCatalog n; EvHorizons (body_id b) d], Raise e).
Proof.
  unfold status_of, loop_body. destruct (cat n) as [b|e']; [|discriminate].
  intro H. exists b. split; [reflexivity|].
  rewrite call_ok, bind_ok. cbn [trace result fst snd app].
  destruct (eph (body_id b) d) as [p|[]]; try discriminate;
    injection H as <-; reflexivity.
Qed.

Lemma turn_no_ephemeris vl i n st :
  status_of' n = NoEphemeris ->
  exists b, cat n = Ok b
    /\ turn vl i n st
       = ([EvCatalog n; EvHorizons (body_id b) d; EvPrint EmptyString;
           EvPrint (no_ephemeris_message n d)],
          Ok (with_bodies_dict
                (dict_del n (dict_set n (fresh_entry b) (bodies_dict st))) st)).
Proof.
  unfold status_of, loop_body. destruct (cat n) as [b|e']; [|discriminate].
  intro H. exists b. split; [reflexivity|].
  rewrite call_ok, bind_ok. cbn [trace result fst snd app].
  destruct (eph (body_id b) d) as [p|[]]; try discriminate.
  reflexivity.
Qed.

Lemma record_body_ok vl i n p st v :
  nth_error vl i = Some v -> ~ v == 0 ->
  record_body d rl rlat pE vl i n p st
  = ret (store_body rl rlat pE n p v v (backmapping_value p d rl v) st).
Proof.
  intros Hv Hz. unfold record_body, getitem. rewrite Hv.
  rewrite !bind_ret. rewrite backmapping_defined by exact Hz.
  now rewrite bind_ret.
Qed.

Lemma turn_resolved vl i n st b p v :
  status_of' n = Resolved b p ->
  nth_error vl i = Some v -> ~ v == 0 ->
  turn vl i n st
  = ([EvCatalog n; EvHorizons (body_id b) d],
     Ok (store_body rl rlat pE n p v v (backmapping_value p d rl v)
           (with_bodies_dict (dict_set n (fresh_entry b) (bodies_dict st)) st))).
Proof.
  unfold status_of, loop_body. destruct (cat n) as [b'|e']; [|discriminate].
  intros H Hv Hz.
  rewrite call_ok, bind_ok, bind_emit_ret.
  destruct (eph (body_id b') d) as [p'|[]]; try discriminate.
  injection H as <- <-. cbn iota.
  rewrite (record_body_ok vl i n p' _ v Hv Hz). reflexivity.
Qed.

Lemma turn_index_error vl i n st b p :
  status_of' n = Resolved b p ->
  nth_error vl i = None ->
  turn vl i n st = ([EvCatalog n; EvHorizons (body_id b) d], Raise IndexError).
Proof.
  unfold status_of, loop_body. destruct (cat n) as [b'|e']; [|discriminate].
  intros H Hv.
  rewrite call_ok, bind_ok, bind_emit_ret.
  destruct (eph (body_id b') d) as [p'|[]]; try discriminate.
  injection H as <- <-. cbn iota.
  unfold record_body, getitem. rewrite Hv. reflexivity.
Qed.

(** Whatever the speeds, a catalogued body is looked up in the
    ephemeris before anything else happens in its turn. *)
Lemma turn_trace vl i n st b :
  cat n = Ok b ->
  exists t, trace (turn vl i n st) = EvCatalog n :: EvHorizons (body_id b) d :: t.
Proof.
  intro H. unfold loop_body. rewrite H, call_ok, bind_ok, bind_emit_ret.
  cbn [trace fst app]. eexists. reflexivity.
Qed.

(** A turn reads [vsw_list] at its own index only. *)
Lemma turn_vsw_ext vl vl' i n st :
  nth_error vl i = nth_error vl' i ->
  turn vl i n st = turn vl' i n st.
Proof.
  intro H. unfold loop_body, record_body, getitem. rewrite H. reflexivity.
Qed.

(** *** The rows a turn appends *)

Lemma extends_nil vl st : extends pE vl st st [].
Proof.
  unfold extends. cbn [map]. rewrite !app_nil_r. repeat split.
Qed.

Lemma extends_app vl st0 st1 st2 R1 R2 :
  extends pE vl st0 st1 R1 -> extends pE vl st1 st2 R2 ->
  extends pE vl st0 st2 (R1 ++ R2).
Proof.
  unfold extends.
  intros (A1 & A2 & A3 & A4 & A5 & A6 & A7 & A8)
         (B1 & B2 & B3 & B4 & B5 & B6 & B7 & B8).
  rewrite B1, B2, B3, B4, B5, B6, B7, B8, A1, A2, A3, A4, A5, A6, A7, A8.
  rewrite !map_app, !app_assoc. repeat split.
Qed.

Lemma extends_skip vl n b st :
  ~ In n (dict_keys (bodies_dict st)) ->
  extends pE vl st
    (with_bodies_dict (dict_del n (dict_set n (fresh_entry b) (bodies_dict st))) st)
    [].
Proof.
  intro H. rewrite dict_del_set_fresh by exact H.
  unfold extends, with_bodies_dict. cbn [map]. rewrite !app_nil_r.
  repeat split.
Qed.

Lemma extends_store vl i n b p v st :
  ~ In n (dict_keys (bodies_dict st)) ->
  nth_error vl i = Some v ->
  extends pE vl st
    (store_body rl rlat pE n p v v (backmapping_value p d rl v)
       (with_bodies_dict (dict_set n (fresh_entry b) (bodies_dict st)) st))
    [(i, n, p)].
Proof.
  intros H Hv.
  assert (Hn : nth i vl 0 = v) by (apply nth_error_nth; exact Hv).
  unfold extends, store_body, backmapping_value, with_bodies_dict.
  cbn [map fst snd]. rewrite Hn.
  destruct rl as [r|], rlat as [r'|];
    cbn [bodies_dict body_lon_list body_lat_list body_dist_list longsep_E_list
         latsep_E_list body_vsw_list footp_long_list];
    rewrite ?dict_keys_append, dict_keys_set_fresh by exact H;
    repeat split.
Qed.

(** *** The whole loop *)

Lemma loop_cons vl i n rest st :
  run vl i (n :: rest) st = bind (turn vl i n st) (run vl (S i) rest).
Proof. reflexivity. Qed.

Lemma loop_app vl l1 l2 : forall i st,
  run vl i (l1 ++ l2) st
  = bind (run vl i l1 st) (run vl (i + List.length l1) l2).
Proof.
  induction l1 as [|n l1 IH]; intros i st.
  - cbn [app loop List.length]. rewrite bind_ret. now rewrite Nat.add_0_r.
  - cbn [app List.length]. rewrite !loop_cons, bind_assoc.
    apply bind_ext. intro st1. rewrite IH. now rewrite Nat.add_succ_comm.
Qed.

(** The loop reads [vsw_list] at the indices of its bodies only. *)
Lemma loop_vsw_ext vl vl' bl : forall i st,
  (forall j, (i <= j < i + List.length bl)%nat -> nth_error vl j = nth_error vl' j) ->
  run vl i bl st = run vl' i bl st.
Proof.
  induction bl as [|n rest IH]; intros i st H; [reflexivity|].
  rewrite !loop_cons. cbn [List.length] in H.
  rewrite (turn_vsw_ext vl vl') by (apply H; lia).
  apply bind_ext. intro st1. apply IH. intros j Hj. apply H. lia.
Qed.

(** Every body known to the catalogue, every lookup answered or
    refused with [ValueError], a non-zero speed at every index: the
    loop runs to its end, appends one row per resolved body and
    prints one diagnostic per refused one. *)
Lemma loop_ok vl bl : forall i st,
  (forall n, In n bl ->
     recoverable (status_of' n) = true) ->
  (forall j, (i <= j < i + List.length bl)%nat ->
     exists v, nth_error vl j = Some v /\ ~ v == 0) ->
  NoDup bl ->
  (forall n, In n bl -> ~ In n (dict_keys (bodies_dict st))) ->
  exists t st',
    run vl i bl st = (t, Ok st')
    /\ extends pE vl st st' (resolved cat eph d i bl)
    /\ (forall n, In n bl -> status_of' n = NoEphemeris ->
          In (EvPrint (no_ephemeris_message n d)) t).
Proof.
  induction bl as [|n rest IH]; intros i st Hst Hv Hnd Hfresh.
  - exists [], st. split; [reflexivity|]. split; [apply extends_nil|].
    intros n [].
  - rewrite loop_cons. cbn [resolved].
    assert (Hn : ~ In n (dict_keys (bodies_dict st))) by (apply Hfresh; now left).
    inversion Hnd as [|? ? Hnotin Hnd']; subst.
    pose proof (Hst n (or_introl eq_refl)) as Sn.
    assert (Hst' : forall m, In m rest ->
              recoverable (status_of' m) = true)
      by (intros m Hm; apply Hst; now right).
    assert (Hv' : forall j, (Datatypes.S i <= j < Datatypes.S i + List.length rest)%nat ->
              exists v, nth_error vl j = Some v /\ ~ v == 0)
      by (intros j Hj; apply Hv; cbn [List.length]; lia).
    destruct (status_of' n) as [e| |e|b p] eqn:S; try discriminate Sn.
    + (* the lookup is refused *)
      destruct (turn_no_ephemeris vl i n st S) as (b & _ & ->).
      pose proof (extends_skip vl n b st Hn) as E1.
      set (st1 := with_bodies_dict _ st) in *.
      assert (F1 : forall m, In m rest -> ~ In m (dict_keys (bodies_dict st1))).
      { intros m Hm. destruct E1 as (K & _). rewrite K. cbn [map].
        rewrite app_nil_r. apply Hfresh. now right. }
      destruct (IH (Datatypes.S i) st1 Hst' Hv' Hnd' F1)
        as (t & st' & Hrun & E2 & Hp).
      rewrite bind_ok, Hrun. cbn [trace result fst snd].
      eexists _, st'. split; [reflexivity|]. split.
      * exact (extends_app vl st st1 st' [] _ E1 E2).
      * intros m [<-|Hm] Sm.
        -- cbn [app In]. tauto.
        -- apply in_or_app. right. now apply Hp.
    + (* the body is resolved *)
      destruct (Hv i) as (v & Hvi & Hz); [cbn [List.length]; lia|].
      rewrite (turn_resolved vl i n st b p v S Hvi Hz).
      pose proof (extends_store vl i n b p v st Hn Hvi) as E1.
      set (st1 := store_body _ _ _ _ _ _ _ _ _) in *.
      assert (F1 : forall m, In m rest -> ~ In m (dict_keys (bodies_dict st1))).
      { intros m Hm. destruct E1 as (K & _). rewrite K. cbn [map fst snd].
        intro Hin. apply in_app_or in Hin as [Hin|[<-|[]]].
        - revert Hin. apply Hfresh. now right.
        - contradiction. }
      destruct (IH (Datatypes.S i) st1 Hst' Hv' Hnd' F1)
        as (t & st' & Hrun & E2 & Hp).
      rewrite bind_ok, Hrun. cbn [trace result fst snd].
      eexists _, st'. split; [reflexivity|]. split.
      * exact (extends_app vl st st1 st' [_] _ E1 E2).
      * intros m [<-|Hm] Sm.
        -- congruence.
        -- apply in_or_app. right. now apply Hp.
Qed.

(** No body resolves: the loop runs to its end, prints a diagnostic
    for every body and leaves the lists as they were. *)
Lemma loop_all_skipped vl bl : forall i st,
  (forall n, In n bl -> status_of' n = NoEphemeris) ->
  exists t st',
    run vl i bl st = (t, Ok st')
    /\ body_dist_list st' = body_dist_list st
    /\ (forall n, In n bl -> In (EvPrint (no_ephemeris_message n d)) t).
Proof.
  induction bl as [|n rest IH]; intros i st H.
  - exists [], st. repeat split. intros n [].
  - rewrite loop_cons.
    destruct (turn_no_ephemeris vl i n st (H n (or_introl eq_refl)))
      as (b & _ & ->).
    set (st1 := with_bodies_dict _ st).
    destruct (IH (Datatypes.S i) st1) as (t & st' & Hrun & Hd & Hp).
    { intros m Hm. apply H. now right. }
    rewrite bind_ok, Hrun. cbn [trace result fst snd].
    eexists _, st'. split; [reflexivity|]. split; [exact Hd|].
    intros m [<-|Hm].
    + cbn [app In]. tauto.
    + apply in_or_app. right. now apply Hp.
Qed.

(** Every body resolves and [vsw_list] ends inside the stretch of
    indices the loop goes through: the loop leaves with
    [IndexError]. *)
Lemma loop_index_error vl bl : forall i st,
  (forall n, In n bl -> is_resolved (status_of' n) = true) ->
  forallb nonzero vl = true ->
  (i <= List.length vl < i + List.length bl)%nat ->
  result (run vl i bl st) = Raise IndexError.
Proof.
  induction bl as [|n rest IH]; intros i st H Hnz Hlen.
  - cbn [List.length] in Hlen. lia.
  - rewrite loop_cons. cbn [List.length] in Hlen.
    pose proof (H n (or_introl eq_refl)) as Sn.
    destruct (status_of' n) as [e| |e|b p] eqn:S; try discriminate Sn.
    destruct (nth_error vl i) as [v|] eqn:Hv.
    + assert (Hz : ~ v == 0).
      { apply nth_error_In in Hv. rewrite forallb_forall in Hnz.
        specialize (Hnz v Hv). unfold nonzero in Hnz.
        apply negb_true_iff in Hnz. now apply Qeq_bool_neq. }
      rewrite (turn_resolved vl i n st b p v S Hv Hz), bind_ok.
      cbn [result snd]. apply IH.
      * intros m Hm. apply H. now right.
      * exact Hnz.
      * assert (i < List.length vl)%nat
          by (apply nth_error_Some; congruence).
        lia.
    + rewrite (turn_index_error vl i n st b p S Hv). reflexivity.
Qed.

(** *** The resolved bodies *)

Lemma resolved_names bl : forall i,
  map (fun r => snd (fst r)) (resolved cat eph d i bl)
  = filter (fun n => is_resolved (status_of' n)) bl.
Proof.
  induction bl as [|n rest IH]; intro i; [reflexivity|].
  cbn [resolved filter].
  destruct (status_of' n); cbn [is_resolved map fst snd]; now rewrite IH.
Qed.


Lemma resolved_index bl : forall i r,
  In r (resolved cat eph d i bl) ->
  (i <= fst (fst r) < i + List.length bl)%nat.
Proof.
  induction bl as [|n rest IH]; intros i r Hr; [destruct Hr|].
  cbn [resolved] in Hr. cbn [List.length].
  assert (Hrest : In r (resolved cat eph d (Datatypes.S i) rest) ->
                  (i <= fst (fst r) < i + Datatypes.S (List.length rest))%nat)
    by (intro Hin; apply IH in Hin; lia).
  destruct (status_of' n); try (now apply Hrest).
  destruct Hr as [<-|Hr]; [cbn; lia | now apply Hrest].
Qed.

End LoopFacts.

(** ** After the loop *)

Lemma fold_max_spec (l : list Q) : forall a,
  let m := fold_left (fun m y => if Qle_bool m y then y else m) l a in
  (m = a \/ In m l) /\ a <= m /\ (forall x, In x l -> x <= m).
Proof.
  induction l as [|y l IH]; intro a; cbn [fold_left].
  - repeat split; [now left | apply Qle_refl | intros x []].
  - set (a' := if Qle_bool a y then y else a).
    destruct (IH a') as (Hin & Hle & Hall).
    assert (Ha : (a' = a \/ a' = y) /\ a <= a' /\ y <= a').
    { unfold a'. destruct (Qle_bool a y) eqn:E.
      - apply Qle_bool_iff in E. repeat split; [now right | exact E | apply Qle_refl].
      - assert (y < a).
        { apply Qnot_le_lt. intro L. apply Qle_bool_iff in L. congruence. }
        repeat split; [now left | apply Qle_refl | now apply Qlt_le_weak]. }
    destruct Ha as (Hsel & Haa & Hya).
    repeat split.
    + destruct Hin as [->|Hin].
      * destruct Hsel as [->| ->]; [now left | right; now left].
      * right; now right.
    + eapply Qle_trans; eassumption.
    + intros x [<-|Hx]; [eapply Qle_trans; eassumption | now apply Hall].
Qed.

(** [np.max] of a non-empty list is an element of it that bounds the
    others. *)
Lemma np_max_spec (l : list Q) :
  l <> [] ->
  exists m, np_max l = ret m /\ In m l /\ (forall x, In x l -> x <= m).
Proof.
  destruct l as [|a l]; [congruence|]. intros _.
  destruct (fold_max_spec l a) as (Hin & Hle & Hall).
  eexists. split; [reflexivity|]. split.
  - destruct Hin as [->|Hin]; [now left | now right].
  - intros x [<-|Hx]; [exact Hle | now apply Hall].
Qed.

Lemma pd_DataFrame_ok (c0 : list string) (c1 c2 c3 c4 c5 : list Q) :
  List.length c1 = List.length c0 -> List.length c2 = List.length c0 ->
  List.length c3 = List.length c0 -> List.length c4 = List.length c0 ->
  List.length c5 = List.length c0 ->
  pd_DataFrame c0 c1 c2 c3 c4 c5 = ret (mkDataFrame c0 c1 c2 c3 c4 c5).
Proof.
  intros H1 H2 H3 H4 H5. unfold pd_DataFrame.
  rewrite H1, H2, H3, H4, H5, !Nat.eqb_refl. reflexivity.
Qed.

(** With [speeds_ok], the list the loop reads has a non-zero speed at
    every index of the body list. *)
Lemma default_vsw_list_covers (bl : list string) (vl : list Q) :
  speeds_ok bl vl = true ->
  forall j, (0 <= j < 0 + List.length bl)%nat ->
    exists v, nth_error (default_vsw_list bl vl) j = Some v /\ ~ v == 0.
Proof.
  unfold speeds_ok, default_vsw_list. intros H j Hj.
  destruct (List.length vl =? 0)%nat eqn:E.
  - exists 400. split; [|discriminate].
    rewrite nth_error_repeat by lia. reflexivity.
  - cbn [orb] in H. apply andb_true_iff in H as [Hlen Hnz].
    apply Nat.leb_le in Hlen.
    destruct (nth_error vl j) as [v|] eqn:Hv.
    + exists v. split; [reflexivity|].
      apply nth_error_In in Hv. rewrite forallb_forall in Hnz.
      specialize (Hnz v Hv). unfold nonzero in Hnz.
      apply negb_true_iff in Hnz. now apply Qeq_bool_neq.
    + apply nth_error_None in Hv. lia.
Qed.

(** The constructor succeeds whenever Earth resolves, the names are
    distinct, every body is resolved or refused with [ValueError], at
    least one is resolved, and the speeds are usable. *)
Lemma init_ok (cat : string -> outcome Body) (eph : Z -> string -> outcome SkyCoord)
    (date : string) (bl : list string) (vl : list Q) (rl rlat : option Q)
    (pE : SkyCoord) :
  eph 399%Z date = Ok pE ->
  NoDup bl ->
  (forall n, In n bl -> recoverable (status_of cat eph date n) = true) ->
  resolved cat eph date 0 bl <> [] ->
  speeds_ok bl vl = true ->
  exists t obj st,
    __init__ cat eph date bl vl rl rlat = (EvHorizons 399 date :: t, Ok (obj, st))
    /\ extends pE (default_vsw_list bl vl) locals0 st (resolved cat eph date 0 bl)
    /\ body_dict obj = bodies_dict st
    /\ col_Body (coord_table obj) = dict_keys (bodies_dict st)
    /\ In (max_dist obj) (body_dist_list st)
    /\ (forall x, In x (body_dist_list st) -> x <= max_dist obj)
    /\ (forall n, In n bl -> status_of cat eph date n = NoEphemeris ->
          In (EvPrint (no_ephemeris_message n date)) t).
Proof.
  intros HE Hnd Hst Hres Hsp.
  destruct (loop_ok cat eph date rl rlat pE (default_vsw_list bl vl) bl 0 locals0
              Hst (default_vsw_list_covers bl vl Hsp) Hnd)
    as (t & st & Hrun & Hext & Hprint).
  { intros n _ []. }
  pose proof Hext as (K & L1 & L2 & L3 & L4 & L5 & _).
  cbn [locals0 bodies_dict body_lon_list body_lat_list body_dist_list
       longsep_E_list latsep_E_list app] in K, L1, L2, L3, L4, L5.
  change (dict_keys []) with (@nil string) in K. cbn [app] in K.
  destruct (np_max_spec (body_dist_list st)) as (m & Hm & Hin & Hall).
  { rewrite L3. destruct (resolved cat eph date 0 bl); [congruence | discriminate]. }
  unfold __init__. rewrite HE, call_ok, bind_ok. cbn zeta.
  rewrite Hrun, bind_ok, Hm, bind_ret.
  rewrite pd_DataFrame_ok;
    [| unfold np_around, np_around2;
       rewrite length_map, ?L1, ?L2, ?L3, ?L4, ?L5, K, !length_map; reflexivity ..].
  rewrite bind_ret. cbn [ret trace result fst snd app].
  eexists t, _, st. split; [rewrite app_nil_r; reflexivity|].
  cbn [body_dict max_dist coord_table col_Body].
  split; [exact Hext|]. repeat split; assumption.
Qed.

(** ** Claims about the constructor *)



(** C4: Earth resolves and every body of the list is refused by the
    ephemeris service.  Then every body has been looked up and
    reported, and the constructor raises the [ValueError] of [np.max]
    on the empty list of distances. *)
Theorem C4_no_resolved_body_raises :
  forall (cat : string -> outcome Body) (eph : Z -> string -> outcome SkyCoord)
         (date : string) (body_list : list string) (vsw_list : list Q)
         (rl rlat : option Q) (pE : SkyCoord),
    eph 399%Z date = Ok pE ->
    forallb (fun n => is_no_ephemeris (status_of cat eph date n)) body_list = true ->
    result (__init__ cat eph date body_list vsw_list rl rlat) = Raise ValueError
    /\ (forall n, In n body_list ->
          In (EvPrint (no_ephemeris_message n date))
             (trace (__init__ cat eph date body_list vsw_list rl rlat))).
Proof.
  intros cat eph date bl vl rl rlat pE HE Hall.
  assert (Hst : forall n, In n bl -> status_of cat eph date n = NoEphemeris).
  { intros n Hn. rewrite forallb_forall in Hall. specialize (Hall n Hn).
    destruct (status_of cat eph date n); try discriminate. reflexivity. }
  destruct (loop_all_skipped cat eph date rl rlat pE (default_vsw_list bl vl)
              bl 0 locals0 Hst) as (t & st & Hrun & Hd & Hprint).
  change (body_dist_list locals0) with (@nil Q) in Hd.
  unfold __init__. rewrite HE, call_ok, bind_ok. cbn zeta.
  rewrite Hrun, bind_ok, Hd. cbn [np_max raise bind trace result fst snd].
  split; [reflexivity|].
  intros n Hn. apply in_or_app. right. apply in_or_app. left. now apply Hprint.
Qed.

Ltac distinct_names := repeat constructor; simpl; intuition discriminate.


Lemma C4_no_resolved_body_raises_witness :
  result (__init__ Scenario.catalog Scenario.earth_only Scenario.date
            ["A"%string; "B"%string] [] None None) = Raise ValueError
  /\ (forall n, In n ["A"%string; "B"%string] ->
        In (EvPrint (no_ephemeris_message n Scenario.date))
           (trace (__init__ Scenario.catalog Scenario.earth_only Scenario.date
                     ["A"%string; "B"%string] [] None None))).
Proof.
  apply (C4_no_resolved_body_raises Scenario.catalog Scenario.earth_only
           Scenario.date ["A"%string; "B"%string] [] None None
           (mkSkyCoord 350 0 1)).
  - reflexivity.
  - reflexivity.
Defined.

(** C5 as stated fails: with two resolvable bodies and the one-element
    [vsw_list = [400]], the second body has no paired speed and the
    constructor raises [IndexError]. *)
Lemma C5_short_vsw_list_raises_IndexError :
  result (__init__ Scenario.catalog Scenario.ephemeris Scenario.date
            ["A"%string; "B"%string] [400] None None) = Raise IndexError.
Proof. vm_compute. reflexivity. Qed.

(** C5, amended: Earth resolves and the bodies, of distinct names, all
    resolve.  With an empty [vsw_list] construction succeeds and every
    body is given 400 km/s, in the speed list and in the footpoint
    computation.  With a non-empty [vsw_list] of non-zero speeds that is
    strictly shorter than the body list nothing is defaulted: the
    constructor raises [IndexError]. *)
Theorem C5_default_speed_for_empty_list_only :
  forall (cat : string -> outcome Body) (eph : Z -> string -> outcome SkyCoord)
         (date : string) (body_list : list string) (rl rlat : option Q)
         (pE : SkyCoord),
    eph 399%Z date = Ok pE ->
    NoDup body_list ->
    body_list <> [] ->
    forallb (fun n => is_resolved (status_of cat eph date n)) body_list = true ->
    (exists t obj st,
        __init__ cat eph date body_list [] rl rlat = (t, Ok (obj, st))
        /\ body_vsw_list st = repeat 400 (List.length body_list)
        /\ footp_long_list st
           = map (fun r => wrap_gt360
                             (lon (snd r) + backmapping_alpha (radius (snd r)) 400))
               (resolved cat eph date 0 body_list))
    /\ (forall vsw_list,
          vsw_list <> [] ->
          (List.length vsw_list < List.length body_list)%nat ->
          forallb nonzero vsw_list = true ->
          result (__init__ cat eph date body_list vsw_list rl rlat) = Raise IndexError).
Proof.
  intros cat eph date bl rl rlat pE HE Hnd Hne Hall.
  pose proof (resolved_names cat eph date bl 0) as HN.
  rewrite (forallb_filter_id _ _ Hall) in HN.
  assert (Hres : forall n, In n bl -> is_resolved (status_of cat eph date n) = true)
    by (now apply forallb_forall).
  split.
  - destruct (init_ok cat eph date bl [] rl rlat pE HE Hnd)
      as (t & obj & st & Hrun & Hext & _).
    + intros n Hn. unfold recoverable. now rewrite (Hres n Hn).
    + intro E. rewrite E in HN. cbn [map] in HN. now apply Hne.
    + reflexivity.
    + destruct Hext as (_ & _ & _ & _ & _ & _ & L7 & L8).
      change (default_vsw_list bl []) with (repeat 400 (List.length bl)) in L7, L8.
      change (body_vsw_list locals0) with (@nil Q) in L7.
      change (footp_long_list locals0) with (@nil Q) in L8.
      cbn [app] in L7, L8.
      assert (Hidx : forall r, In r (resolved cat eph date 0 bl) ->
                nth (fst (fst r)) (repeat 400 (List.length bl)) 0 = 400).
      { intros r Hr. apply resolved_index in Hr. apply nth_repeat_lt. lia. }
      exists (EvHorizons 399 date :: t), obj, st.
      split; [exact Hrun|]. split.
      * rewrite L7.
        rewrite (map_ext_in _ (fun _ => 400)) by exact Hidx.
        rewrite map_const. f_equal.
        rewrite <- (length_map (fun r => snd (fst r))). now rewrite HN.
      * rewrite L8. apply map_ext_in. intros r Hr. now rewrite (Hidx r Hr).
  - intros vl Hvl Hlen Hnz.
    unfold __init__. rewrite HE, call_ok, bind_ok. cbn zeta.
    assert (Hdef : default_vsw_list bl vl = vl).
    { unfold default_vsw_list. destruct vl; [congruence | reflexivity]. }
    rewrite Hdef.
    rewrite (pair_io (loop cat eph date rl rlat pE vl 0 bl locals0)).
    rewrite (loop_index_error cat eph date rl rlat pE vl bl 0 locals0 Hres Hnz)
      by lia.
    reflexivity.
Qed.

Lemma C5_default_speed_for_empty_list_only_witness :
  (exists t obj st,
      __init__ Scenario.catalog Scenario.ephemeris Scenario.date
        ["A"%string; "B"%string] [] None None = (t, Ok (obj, st))
      /\ body_vsw_list st = repeat 400 2
      /\ footp_long_list st
         = map (fun r => wrap_gt360
                           (lon (snd r) + backmapping_alpha (radius (snd r)) 400))
             (resolved Scenario.catalog Scenario.ephemeris Scenario.date 0
                ["A"%string; "B"%string]))
  /\ result (__init__ Scenario.catalog Scenario.ephemeris Scenario.date
               ["A"%string; "B"%string] [500] None None) = Raise IndexError.
Proof.
  destruct (C5_default_speed_for_empty_list_only Scenario.catalog
              Scenario.ephemeris Scenario.date ["A"%string; "B"%string]
              None None (mkSkyCoord 350 0 1)) as [Hempty Hshort].
  - reflexivity.
  - distinct_names.
  - discriminate.
  - reflexivity.
  - split; [exact Hempty|].
    apply (Hshort [500]); [discriminate | simpl; lia | reflexivity].
Defined.

(** C7 as stated fails: a run with the negative wind speed -400 is not
    rejected.  The Earth lookup, the catalogue lookup and the body's
    ephemeris lookup are all made, and construction succeeds with the
    speed recorded as given. *)
Lemma C7_negative_speed_is_not_rejected :
  exists obj st,
    __init__ Scenario.catalog Scenario.ephemeris Scenario.date
      ["A"%string] [-400] None None
    = ([EvHorizons 399 Scenario.date; EvCatalog "A"; EvHorizons 1 Scenario.date],
       Ok (obj, st))
    /\ body_vsw_list st = [-400].
Proof.
  do 2 eexists. split; vm_compute; reflexivity.
Qed.

(** C7, amended: the constructor validates nothing.  (1) Whatever the
    input, its first action is the Earth ephemeris lookup.  (2) When
    Earth resolves and the first name of the body list is catalogued,
    the catalogue and ephemeris lookups of that body come next,
    whatever the wind speeds, a speed of 0 included: no speed has been
    read or checked by then.  (3) A negative wind speed is accepted and
    used as given.  (4) An empty body list is not refused up front:
    after the Earth lookup, [np.max] raises on the empty list of
    distances. *)
Theorem C7_no_validation_before_lookups :
  forall (cat : string -> outcome Body) (eph : Z -> string -> outcome SkyCoord)
         (date : string),
    (forall bl vl rl rlat,
        exists t, trace (__init__ cat eph date bl vl rl rlat)
                  = EvHorizons 399 date :: t)
    /\ (forall pE n rest vl rl rlat b,
          eph 399%Z date = Ok pE ->
          cat n = Ok b ->
          exists t,
            trace (__init__ cat eph date (n :: rest) vl rl rlat)
            = EvHorizons 399 date :: EvCatalog n :: EvHorizons (body_id b) date :: t)
    /\ (forall pE n v rl rlat b p,
          eph 399%Z date = Ok pE ->
          status_of cat eph date n = Resolved b p ->
          v < 0 ->
          exists t obj st,
            __init__ cat eph date [n] [v] rl rlat = (t, Ok (obj, st))
            /\ body_vsw_list st = [v]
            /\ footp_long_list st
               = [wrap_gt360 (lon p + backmapping_alpha (radius p) v)])
    /\ (forall pE vl rl rlat,
          eph 399%Z date = Ok pE ->
          __init__ cat eph date [] vl rl rlat
          = ([EvHorizons 399 date], Raise ValueError)).
Proof.
  intros cat eph date. repeat split.
  - intros bl vl rl rlat. unfold __init__.
    destruct (eph 399%Z date) as [pE|e].
    + rewrite call_ok, bind_ok. cbn [trace fst app]. eexists. reflexivity.
    + rewrite call_raise, bind_raise. cbn [trace fst]. eexists. reflexivity.
  - intros pE n rest vl rl rlat b HE Hn.
    unfold __init__. rewrite HE, call_ok, bind_ok. cbn zeta.
    rewrite loop_cons.
    match goal with
    | |- context [bind (bind ?m ?k1) ?k2] =>
        destruct (trace_bind (bind m k1) k2) as (t2 & ->);
        destruct (trace_bind m k1) as (t1 & ->)
    end.
    destruct (turn_trace cat eph date rl rlat pE
                (default_vsw_list (n :: rest) vl) 0 n locals0 b Hn) as (t0 & ->).
    cbn [trace fst app]. eexists. reflexivity.
  - intros pE n v rl rlat b p HE Hn Hv.
    assert (Hnz : Qeq_bool v 0 = false).
    { destruct (Qeq_bool v 0) eqn:E; [|reflexivity].
      apply Qeq_bool_iff in E. lra. }
    destruct (init_ok cat eph date [n] [v] rl rlat pE HE)
      as (t & obj & st & Hrun & Hext & _).
    + distinct_names.
    + intros m [<-|[]]. now rewrite Hn.
    + cbn [resolved]. rewrite Hn. discriminate.
    + unfold speeds_ok, nonzero. cbn [List.length forallb Nat.eqb Nat.leb orb andb].
      now rewrite Hnz.
    + destruct Hext as (_ & _ & _ & _ & _ & _ & L7 & L8).
      cbn [resolved] in L7, L8. rewrite Hn in L7, L8.
      exists (EvHorizons 399 date :: t), obj, st.
      split; [exact Hrun|]. split; [exact L7 | exact L8].
  - intros pE vl rl rlat HE.
    unfold __init__. rewrite HE, call_ok, bind_ok. reflexivity.
Qed.

Lemma C7_no_validation_before_lookups_witness :
  (exists t,
      trace (__init__ Scenario.catalog Scenario.ephemeris Scenario.date
               ["A"%string; "B"%string] [0; 400] None None)
      = EvHorizons 399 Scenario.date :: EvCatalog "A"
          :: EvHorizons 1 Scenario.date :: t)
  /\ (exists t obj st,
        __init__ Scenario.catalog Scenario.ephemeris Scenario.date
          ["A"%string] [-400] (Some 20) None = (t, Ok (obj, st))
        /\ body_vsw_list st = [-400]
        /\ footp_long_list st = [wrap_gt360 (10 + backmapping_alpha 1 (-400))])
  /\ __init__ Scenario.catalog Scenario.ephemeris Scenario.date [] [] None None
     = ([EvHorizons 399 Scenario.date], Raise ValueError).
Proof.
  destruct (C7_no_validation_before_lookups Scenario.catalog Scenario.ephemeris
              Scenario.date) as (_ & Hfirst & Hneg & Hempty).
  split; [|split].
  - apply (Hfirst (mkSkyCoord 350 0 1) "A"%string ["B"%string] [0; 400] None None
             (mkBody 1 "A" "red")); reflexivity.
  - apply (Hneg (mkSkyCoord 350 0 1) "A"%string (-400) (Some 20) None
             (mkBody 1 "A" "red") (mkSkyCoord 10 5 1)); reflexivity.
  - apply (Hempty (mkSkyCoord 350 0 1)); reflexivity.
Defined.

(** A body unknown to the catalogue, or whose ephemeris lookup raises
    anything but [ValueError], ends its turn of the loop with that
    exception, whatever the state, the index and the speeds. *)
Lemma turn_aborts (cat : string -> outcome Body) (eph : Z -> string -> outcome SkyCoord)
    (date : string) (rl rlat : option Q) (bad : string) (e : exn) :
  (cat bad = Raise e
   \/ exists b, cat bad = Ok b /\ eph (body_id b) date = Raise e /\ e <> ValueError) ->
  exists failing,
    (forall pE vl i st,
        loop_body cat eph date rl rlat pE vl i bad st = (failing, Raise e))
    /\ (failing = [EvCatalog bad]
        \/ exists b, cat bad = Ok b
                     /\ failing = [EvCatalog bad; EvHorizons (body_id b) date]).
Proof.
  intros [Hc | (b & Hc & He & Hne)].
  - exists [EvCatalog bad]. split; [|now left].
    intros pE vl i st. apply turn_unknown. unfold status_of. now rewrite Hc.
  - exists [EvCatalog bad; EvHorizons (body_id b) date]. split.
    + intros pE vl i st.
      assert (S : status_of cat eph date bad = Broken e).
      { unfold status_of. rewrite Hc, He. destruct e; cbn iota; congruence. }
      destruct (turn_broken cat eph date rl rlat pE vl i bad st e S)
        as (b' & Hc' & ->).
      rewrite Hc in Hc'. injection Hc' as <-. reflexivity.
    + right. now exists b.
Qed.

Lemma init_aborts (cat : string -> outcome Body) (eph : Z -> string -> outcome SkyCoord)
    (date : string) (pre post : list string) (bad : string) (vl : list Q)
    (rl rlat : option Q) (e : exn) (failing : list event) :
  (forall pE vl' i st,
      loop_body cat eph date rl rlat pE vl' i bad st = (failing, Raise e)) ->
  __init__ cat eph date (pre ++ bad :: post) vl rl rlat
  = bind (call (EvHorizons 399 date) (eph 399%Z date))
      (fun pE =>
         bind (loop cat eph date rl rlat pE
                 (default_vsw_list (pre ++ bad :: post) vl) 0 pre locals0)
           (fun _ => (failing, Raise e))).
Proof.
  intro H. unfold __init__. apply bind_ext. intro pE. cbn zeta.
  rewrite loop_app, bind_assoc. apply bind_ext. intro st1.
  now rewrite loop_cons, H.
Qed.

Lemma default_vsw_list_prefix (pre post post' : list string) (bad : string)
    (vl : list Q) (j : nat) :
  (0 <= j < 0 + List.length pre)%nat ->
  nth_error (default_vsw_list (pre ++ bad :: post') vl) j
  = nth_error (default_vsw_list (pre ++ bad :: post) vl) j.
Proof.
  intro Hj. unfold default_vsw_list.
  destruct (List.length vl =? 0)%nat; [|reflexivity].
  rewrite !nth_error_repeat; [reflexivity | ..];
    rewrite length_app; cbn [List.length]; lia.
Qed.

(** C9: a name of the body list that the catalogue does not know, or
    whose ephemeris lookup raises an exception other than [ValueError],
    is not recovered.  The constructor raises, so that no constellation
    and no entry is produced; nothing of the run depends on the bodies
    after the failing one, none of which is looked up; and when Earth
    resolves and the loop gets through the bodies before it, the
    exception raised is the failing lookup's own, right after that
    lookup. *)
Theorem C9_unrecovered_failure_aborts_run :
  forall (cat : string -> outcome Body) (eph : Z -> string -> outcome SkyCoord)
         (date : string) (pre : list string) (bad : string) (post : list string)
         (vsw_list : list Q) (rl rlat : option Q) (e : exn),
    (cat bad = Raise e
     \/ exists b, cat bad = Ok b /\ eph (body_id b) date = Raise e /\ e <> ValueError) ->
    (exists t e',
        __init__ cat eph date (pre ++ bad :: post) vsw_list rl rlat = (t, Raise e'))
    /\ (forall post',
          __init__ cat eph date (pre ++ bad :: post') vsw_list rl rlat
          = __init__ cat eph date (pre ++ bad :: post) vsw_list rl rlat)
    /\ (forall pE t st,
          eph 399%Z date = Ok pE ->
          loop cat eph date rl rlat pE
            (default_vsw_list (pre ++ bad :: post) vsw_list) 0 pre locals0
          = (t, Ok st) ->
          exists failing,
            __init__ cat eph date (pre ++ bad :: post) vsw_list rl rlat
            = (EvHorizons 399 date :: t ++ failing, Raise e)
            /\ (failing = [EvCatalog bad]
                \/ exists b, cat bad = Ok b
                             /\ failing = [EvCatalog bad; EvHorizons (body_id b) date])).
Proof.
  intros cat eph date pre bad post vl rl rlat e Hbad.
  destruct (turn_aborts cat eph date rl rlat bad e Hbad)
    as (failing & Hf & Hshape).
  split; [|split].
  - rewrite (init_aborts cat eph date pre post bad vl rl rlat e failing Hf).
    destruct (eph 399%Z date) as [pE|e0].
    + rewrite call_ok, bind_ok.
      destruct (loop cat eph date rl rlat pE
                  (default_vsw_list (pre ++ bad :: post) vl) 0 pre locals0)
        as [t [st|e1]]; cbn [bind trace result fst snd]; eexists _, _; reflexivity.
    + rewrite call_raise, bind_raise. eexists _, _; reflexivity.
  - intro post'.
    rewrite !(init_aborts cat eph date pre _ bad vl rl rlat e failing Hf).
    apply bind_ext. intro pE. f_equal.
    apply loop_vsw_ext. intros j Hj. now apply default_vsw_list_prefix.
  - intros pE t st HE Hloop.
    rewrite (init_aborts cat eph date pre post bad vl rl rlat e failing Hf).
    rewrite HE, call_ok, bind_ok, Hloop.
    exists failing. split; [reflexivity | exact Hshape].
Qed.

Lemma C9_unrecovered_failure_aborts_run_witness :
  (exists t e',
      __init__ Scenario.catalog Scenario.ephemeris Scenario.date
        (["A"%string] ++ "Z"%string :: ["B"%string]) [] None None = (t, Raise e'))
  /\ (forall post',
        __init__ Scenario.catalog Scenario.ephemeris Scenario.date
          (["A"%string] ++ "Z"%string :: post') [] None None
        = __init__ Scenario.catalog Scenario.ephemeris Scenario.date
            (["A"%string] ++ "Z"%string :: ["B"%string]) [] None None)
  /\ (exists failing,
        __init__ Scenario.catalog Scenario.ephemeris Scenario.date
          (["A"%string] ++ "Z"%string :: ["B"%string]) [] None None
        = (EvHorizons 399 Scenario.date
             :: [EvCatalog "A"; EvHorizons 1 Scenario.date] ++ failing,
           Raise DoesNotExist)
        /\ (failing = [EvCatalog "Z"]
            \/ exists b, Scenario.catalog "Z" = Ok b
                 /\ failing = [EvCatalog "Z"; EvHorizons (body_id b) Scenario.date])).
Proof.
  destruct (C9_unrecovered_failure_aborts_run Scenario.catalog Scenario.ephemeris
              Scenario.date ["A"%string] "Z"%string ["B"%string] [] None None
              DoesNotExist) as (Hraise & Hindep & Hexn).
  - left. reflexivity.
  - split; [exact Hraise|]. split; [exact Hindep|].
    eapply (Hexn (mkSkyCoord 350 0 1) [EvCatalog "A"; EvHorizons 1 Scenario.date]).
    + reflexivity.
    + vm_compute. reflexivity.
Defined.

(** * Further properties *)

(** ** [np.arange] and the grids of [plot] *)

Lemma Qdiv_lt_mult (a b c : Q) : 0 < c -> a < b / c -> a * c < b.
Proof.
  intros Hc H.
  assert (E : b == b / c * c) by (field; lra).
  rewrite E. apply Qmult_lt_r; assumption.
Qed.

Lemma Qmult_lt_div (a b c : Q) : 0 < c -> a * c < b -> a < b / c.
Proof. intros Hc H. apply Qlt_shift_div_l; assumption. Qed.




Lemma np_arange_empty (start stop step : Q) :
  0 < step -> stop <= start -> np_arange start stop step = [].
Proof.
  intros Hs Hle. unfold np_arange.
  set (q := (stop - start) / step).
  assert (Hq : q <= 0).
  { unfold q. apply Qle_shift_div_r; [exact Hs | lra]. }
  assert (Hc : (Qceiling q <= 0)%Z).
  { change 0%Z with (Qceiling 0). apply Qceiling_resp_le. exact Hq. }
  replace (Z.to_nat (Qceiling q)) with 0%nat by lia. reflexivity.
Qed.

Lemma np_arange_index (start stop step : Q) (k : nat) :
  0 < step ->
  (k < Z.to_nat (Qceiling ((stop - start) / step)))%nat
  <-> start + inject_Z (Z.of_nat k) * step < stop.
Proof.
  intro Hs. set (q := (stop - start) / step). split.
  - intro Hk.
    assert (Hc : (Z.of_nat k < Qceiling q)%Z) by lia.
    assert (Hq : inject_Z (Z.of_nat k) < q).
    { apply Qle_lt_trans with (inject_Z (Qceiling q - 1)).
      - rewrite <- Zle_Qle. lia.
      - apply Qceiling_lt. }
    apply Qdiv_lt_mult in Hq; [|exact Hs]. lra.
  - intro Hk.
    assert (Hq : inject_Z (Z.of_nat k) < q).
    { apply Qmult_lt_div; [exact Hs | lra]. }
    assert (Hc : inject_Z (Z.of_nat k) < inject_Z (Qceiling q)).
    { eapply Qlt_le_trans; [exact Hq | apply Qle_ceiling]. }
    rewrite <- Zlt_Qlt in Hc. lia.
Qed.

(** [np.arange(0, stop, step)[1:]]: the positive multiples of [step]
    below [stop]. *)
Lemma np_arange_tl_In (stop step x : Q) :
  0 < step ->
  In x (tl (np_arange 0 stop step)) <->
  exists k : nat, (0 < k)%nat /\ x = 0 + inject_Z (Z.of_nat k) * step
                  /\ 0 + inject_Z (Z.of_nat k) * step < stop.
Proof.
  intro Hs.
  assert (Htl : tl (np_arange 0 stop step)
                = map (fun k => 0 + inject_Z (Z.of_nat k) * step)
                    (seq 1 (Z.to_nat (Qceiling ((stop - 0) / step)) - 1))).
  { unfold np_arange.
    destruct (Z.to_nat (Qceiling ((stop - 0) / step))) as [|n]; [reflexivity|].
    cbn [seq map tl]. now rewrite Nat.sub_succ, Nat.sub_0_r. }
  rewrite Htl, in_map_iff. split.
  - intros (k & <- & Hk). apply in_seq in Hk. exists k.
    split; [lia|]. split; [reflexivity|].
    apply np_arange_index; [exact Hs | lia].
  - intros (k & Hpos & -> & Hk). exists k. split; [reflexivity|].
    apply np_arange_index in Hk; [|exact Hs]. apply in_seq. lia.
Qed.



(** The radial grid lines by distance regime.  Below 2 AU the radii
    handed to [set_rgrids] are exactly the positive multiples of 0.5
    below [max_dist + 0.29]; from 2 AU and below 10 AU they are the
    positive multiples of 1; from 10 AU on [set_rgrids] is not
    called. *)
Theorem rgrids_regimes :
  forall max_dist : Q,
    (max_dist < 2 ->
     exists l, rgrids max_dist = Some l
       /\ forall x, In x l <->
            exists k : nat, (0 < k)%nat /\ x = 0 + inject_Z (Z.of_nat k) * 0.5
                            /\ 0 + inject_Z (Z.of_nat k) * 0.5 < max_dist + 0.29)
    /\ (2 <= max_dist -> max_dist < 10 ->
        exists l, rgrids max_dist = Some l
          /\ forall x, In x l <->
               exists k : nat, (0 < k)%nat /\ x = 0 + inject_Z (Z.of_nat k) * 1
                               /\ 0 + inject_Z (Z.of_nat k) * 1 < max_dist + 0.29)
    /\ (10 <= max_dist -> rgrids max_dist = None).
Proof.
  intro max_dist. unfold rgrids. split; [|split].
  - intro H. apply NumFacts.ltb_true in H. rewrite H.
    eexists. split; [reflexivity|].
    intro x. apply np_arange_tl_In. reflexivity.
  - intros H2 H10.
    apply NumFacts.ltb_false in H2. apply NumFacts.ltb_true in H10.
    rewrite H2, H10.
    eexists. split; [reflexivity|].
    intro x. apply np_arange_tl_In. reflexivity.
  - intro H10.
    assert (H2 : Num.ltb max_dist 2 = false) by (apply NumFacts.ltb_false; lra).
    apply NumFacts.ltb_false in H10. now rewrite H2, H10.
Qed.

Lemma rgrids_regimes_witness :
  (exists l, rgrids 1.5 = Some l
     /\ forall x, In x l <->
          exists k : nat, (0 < k)%nat /\ x = 0 + inject_Z (Z.of_nat k) * 0.5
                          /\ 0 + inject_Z (Z.of_nat k) * 0.5 < 1.5 + 0.29)
  /\ (exists l, rgrids 2 = Some l
        /\ forall x, In x l <->
             exists k : nat, (0 < k)%nat /\ x = 0 + inject_Z (Z.of_nat k) * 1
                             /\ 0 + inject_Z (Z.of_nat k) * 1 < 2 + 0.29)
  /\ rgrids 10 = None.
Proof.
  split; [|split].
  - apply (proj1 (rgrids_regimes 1.5)). reflexivity.
  - apply (proj1 (proj2 (rgrids_regimes 2))); [discriminate | reflexivity].
  - apply (proj2 (proj2 (rgrids_regimes 10))). discriminate.
Defined.

(** A constellation that ends within 0.21 AU of the Sun gets no grid
    line at all: [set_rgrids] is called with an empty list of radii. *)
Theorem rgrids_empty_near_sun :
  forall max_dist : Q, max_dist <= 0.21 -> rgrids max_dist = Some [].
Proof.
  intros max_dist H.
  destruct (proj1 (rgrids_regimes max_dist)) as (l & -> & Hl); [lra|].
  f_equal. destruct l as [|x l]; [reflexivity|]. exfalso.
  destruct (proj1 (Hl x) (or_introl eq_refl)) as (k & Hk & _ & Hlt).
  assert (1 <= inject_Z (Z.of_nat k)).
  { change 1 with (inject_Z 1). rewrite <- Zle_Qle. lia. }
  lra.
Qed.

Lemma rgrids_empty_near_sun_witness : rgrids 0.1 = Some [].
Proof.
  apply (rgrids_empty_near_sun 0.1). discriminate.
Defined.

(** ** The spirals of [plot] *)

Lemma plot_omega_eq : plot_omega = omega.
Proof. reflexivity. Qed.

Lemma plot_omega_pos : 0 < plot_omega.
Proof. reflexivity. Qed.

Lemma deg2rad_alpha (dist vsw : Q) :
  ~ vsw == 0 ->
  np_deg2rad (backmapping_alpha dist vsw) == plot_omega / (vsw / AU) * dist.
Proof.
  intro Hv. unfold np_deg2rad. rewrite backmapping_alpha_eq.
  unfold plot_omega, np_radians, rate_deg_per_s.
  assert (HA : ~ AU == 0) by discriminate.
  assert (HP : ~ Num.math_pi == 0) by discriminate.
  field. repeat split; assumption.
Qed.

(** The field line drawn for a body: at radius [r] its angle is the
    body's longitude plus the backmapping angle of the remaining
    distance [dist_body - r], in radians.  It passes through the body
    and, for a positive speed, winds back as [r] grows. *)
Theorem alpha_body_is_backmapping :
  forall body_long dist_body body_vsw : Q,
    ~ body_vsw == 0 ->
    (forall r, alpha_body body_long dist_body body_vsw r
               == np_deg2rad (body_long + backmapping_alpha (dist_body - r) body_vsw))
    /\ alpha_body body_long dist_body body_vsw dist_body == np_deg2rad body_long
    /\ (0 < body_vsw ->
        forall r1 r2, r1 < r2 ->
          alpha_body body_long dist_body body_vsw r2
          < alpha_body body_long dist_body body_vsw r1).
Proof.
  intros L d v Hv. split; [|split].
  - intro r. unfold alpha_body.
    assert (E : np_deg2rad (L + backmapping_alpha (d - r) v)
                == np_deg2rad L + np_deg2rad (backmapping_alpha (d - r) v))
      by (unfold np_deg2rad; ring).
    rewrite E, (deg2rad_alpha (d - r) v Hv). reflexivity.
  - unfold alpha_body. ring.
  - intros Hpos r1 r2 Hr. unfold alpha_body.
    assert (Hc : 0 < plot_omega / (v / AU)).
    { apply Qlt_shift_div_l.
      - apply Qlt_shift_div_l; [exact AU_pos | lra].
      - rewrite Qmult_0_l. exact plot_omega_pos. }
    assert (plot_omega / (v / AU) * (d - r2) < plot_omega / (v / AU) * (d - r1)).
    { apply Qmult_lt_l; [exact Hc | lra]. }
    lra.
Qed.

Lemma alpha_body_is_backmapping_witness :
  (forall r, alpha_body 10 1 400 r
             == np_deg2rad (10 + backmapping_alpha (1 - r) 400))
  /\ alpha_body 10 1 400 1 == np_deg2rad 10
  /\ (forall r1 r2, r1 < r2 -> alpha_body 10 1 400 r2 < alpha_body 10 1 400 r1).
Proof.
  destruct (alpha_body_is_backmapping 10 1 400) as (H1 & H2 & H3).
  - discriminate.
  - split; [exact H1|]. split; [exact H2|]. apply H3. reflexivity.
Defined.

(** The reference field line: at radius [r] its angle is the reference
    longitude minus the backmapping angle of [r], in radians.  Earth's
    distance, which the expression mentions twice, cancels out. *)
Theorem alpha_ref_ignores_earth_distance :
  forall delta reference_vsw dist_e r : Q,
    ~ reference_vsw == 0 ->
    alpha_ref delta reference_vsw dist_e r
    == np_deg2rad (delta - backmapping_alpha r reference_vsw).
Proof.
  intros delta v de r Hv. unfold alpha_ref.
  assert (E : np_deg2rad (delta - backmapping_alpha r v)
              == np_deg2rad delta - np_deg2rad (backmapping_alpha r v))
    by (unfold np_deg2rad; ring).
  rewrite E, (deg2rad_alpha r v Hv). ring.
Qed.

Lemma alpha_ref_ignores_earth_distance_witness :
  alpha_ref 20 400 1 0.007 == np_deg2rad (20 - backmapping_alpha 0.007 400).
Proof.
  apply (alpha_ref_ignores_earth_distance 20 400 1 0.007). discriminate.
Defined.

(** The reference longitude handed to the reference field line: one
    turn is added to a negative value, so that longitudes from -360 on
    and below 360 end up in [0, 360), unchanged modulo 360. *)
Theorem delta_ref_range :
  forall reference_long : Q,
    -360 <= reference_long -> reference_long < 360 ->
    0 <= delta_ref reference_long /\ delta_ref reference_long < 360
    /\ (delta_ref reference_long = reference_long
        \/ delta_ref reference_long = reference_long + 360).
Proof.
  intros x Hlo Hhi. unfold delta_ref.
  destruct (Num.ltb x 0) eqn:E.
  - apply NumFacts.ltb_true in E. repeat split; try lra. now right.
  - apply NumFacts.ltb_false in E. repeat split; try lra. now left.
Qed.

Lemma delta_ref_range_witness :
  0 <= delta_ref (-90) /\ delta_ref (-90) < 360
  /\ (delta_ref (-90) = -90 \/ delta_ref (-90) = -90 + 360).
Proof.
  apply (delta_ref_range (-90)); [discriminate | reflexivity].
Defined.

(** ** The reference arrow and the title *)

Lemma rint_close (x : Q) :
  x - (1 # 2) <= inject_Z (rint x) /\ inject_Z (rint x) <= x + (1 # 2).
Proof.
  unfold rint.
  pose proof (Qfloor_le x) as Hlo. pose proof (Qlt_floor x) as Hhi.
  rewrite inject_Z_plus in Hhi. change (inject_Z 1) with 1 in Hhi.
  destruct (Num.ltb (x - inject_Z (Qfloor x)) (1 # 2)) eqn:E1.
  - apply NumFacts.ltb_true in E1. lra.
  - apply NumFacts.ltb_false in E1.
    destruct (Num.gtb (x - inject_Z (Qfloor x)) (1 # 2)) eqn:E2.
    + rewrite inject_Z_plus. change (inject_Z 1) with 1. lra.
    + apply NumFacts.gtb_false in E2.
      destruct (Z.even (Qfloor x)).
      * lra.
      * rewrite inject_Z_plus. change (inject_Z 1) with 1. lra.
Qed.

Lemma inject_Z_ge (z n : Z) : inject_Z n - (1 # 2) <= inject_Z z -> (n <= z)%Z.
Proof.
  intro H. destruct (Z_le_gt_dec n z) as [L|G]; [exact L|]. exfalso.
  assert (Hz : (z <= n - 1)%Z) by lia.
  rewrite Zle_Qle in Hz. unfold Z.sub in Hz.
  rewrite inject_Z_plus, inject_Z_opp in Hz.
  change (inject_Z 1) with 1 in Hz. lra.
Qed.

Lemma round6_close (x : Q) :
  x - 0.0000005 <= round6 x /\ round6 x <= x + 0.0000005.
Proof.
  unfold round6. destruct (rint_close (x * 1000000)) as [Hlo Hhi].
  split.
  - apply Qle_shift_div_l; [reflexivity | lra].
  - apply Qle_shift_div_r; [reflexivity | lra].
Qed.

Lemma round6_ge (x : Q) (n : Z) : inject_Z n <= x -> inject_Z n <= round6 x.
Proof.
  intro H. unfold round6.
  apply Qle_shift_div_l; [reflexivity|].
  destruct (rint_close (x * 1000000)) as [Hlo _].
  assert (Hn : (n * 1000000 <= rint (x * 1000000))%Z).
  { apply inject_Z_ge. rewrite inject_Z_mult.
    change (inject_Z 1000000) with 1000000. lra. }
  rewrite Zle_Qle, inject_Z_mult in Hn.
  change (inject_Z 1000000) with 1000000 in Hn. exact Hn.
Qed.

(** The reference arrow starts at radius 0.01 and has length
    [arrow_dist].  For a non-negative [max_dist] the length lies
    between 0 and 2, is [max_dist / 3.2] up to the rounding to six
    decimals, is 2 from [max_dist = 6.4] on, and the arrow's end stays
    below the radial limit [max_dist + 0.3] of the axes. *)
Theorem arrow_dist_bounds :
  forall max_dist : Q,
    0 <= max_dist ->
    0 <= arrow_dist max_dist
    /\ arrow_dist max_dist <= 2
    /\ arrow_dist max_dist <= max_dist / 3.2 + 0.0000005
    /\ 0.01 + arrow_dist max_dist < max_dist + 0.3
    /\ (max_dist < 6.4 - 0.0000016 -> max_dist / 3.2 - 0.0000005 <= arrow_dist max_dist)
    /\ (6.4 <= max_dist -> arrow_dist max_dist == 2).
Proof.
  intros m Hm. unfold arrow_dist, min2.
  assert (Hx : 0 <= m / 3.2) by (apply Qle_shift_div_l; [reflexivity | lra]).
  assert (E : m == m / 3.2 * 3.2) by (field; discriminate).
  destruct (round6_close (m / 3.2)) as [Hlo Hhi].
  pose proof (round6_ge (m / 3.2) 0 Hx) as H0. change (inject_Z 0) with 0 in H0.
  destruct (Num.ltb 2 (round6 (m / 3.2))) eqn:L.
  - apply NumFacts.ltb_true in L. repeat split; try lra.
  - apply NumFacts.ltb_false in L. repeat split; try lra.
    intro H64.
    assert (H2 : 2 <= m / 3.2) by (apply Qle_shift_div_l; [reflexivity | lra]).
    pose proof (round6_ge (m / 3.2) 2 H2) as H2'.
    change (inject_Z 2) with 2 in H2'. lra.
Qed.

Lemma arrow_dist_bounds_witness :
  0 <= arrow_dist 9.5
  /\ arrow_dist 9.5 <= 2
  /\ arrow_dist 9.5 <= 9.5 / 3.2 + 0.0000005
  /\ 0.01 + arrow_dist 9.5 < 9.5 + 0.3
  /\ (9.5 < 6.4 - 0.0000016 -> 9.5 / 3.2 - 0.0000005 <= arrow_dist 9.5)
  /\ (6.4 <= 9.5 -> arrow_dist 9.5 == 2).
Proof.
  apply (arrow_dist_bounds 9.5). discriminate.
Defined.

Lemma str_replace_length (old new : ascii) (s : string) :
  String.length (str_replace old new s) = String.length s.
Proof. induction s as [|c s IH]; cbn; [reflexivity | now rewrite IH]. Qed.

Lemma str_replace_removes (old new : ascii) (s : string) :
  new <> old -> ~ In old (list_ascii_of_string (str_replace old new s)).
Proof.
  intro Hne. induction s as [|c s IH]; cbn [str_replace list_ascii_of_string In].
  - tauto.
  - intros [E|Hin]; [|now apply IH].
    destruct (Ascii.eqb_spec c old) as [Hc|Hc]; congruence.
Qed.

Lemma str_replace_absent (old new : ascii) (s : string) :
  ~ In old (list_ascii_of_string s) -> str_replace old new s = s.
Proof.
  induction s as [|c s IH]; cbn [str_replace list_ascii_of_string In]; intro H.
  - reflexivity.
  - destruct (Ascii.eqb_spec c old) as [Hc|Hc]; [tauto|].
    f_equal. apply IH. tauto.
Qed.

(** The title shows the date between "At " and " UTC" with every [T]
    turned into a space: the shown date has the length of the date and
    no [T] in it, and a date without [T] is shown as it is. *)
Theorem plot_title_shows_date :
  forall date : string,
    exists shown,
      plot_title date = ("At " ++ shown ++ " UTC" ++ newline)%string
      /\ String.length shown = String.length date
      /\ ~ In "T"%char (list_ascii_of_string shown)
      /\ (~ In "T"%char (list_ascii_of_string date) -> shown = date).
Proof.
  intro date. exists (str_replace "T" " " date).
  split; [reflexivity|]. split; [apply str_replace_length|]. split.
  - apply str_replace_removes. discriminate.
  - apply str_replace_absent.
Qed.

Lemma plot_title_shows_date_witness :
  exists shown,
    plot_title Scenario.date = ("At " ++ shown ++ " UTC" ++ newline)%string
    /\ String.length shown = String.length Scenario.date
    /\ ~ In "T"%char (list_ascii_of_string shown)
    /\ shown = Scenario.date.
Proof.
  destruct (plot_title_shows_date Scenario.date) as (shown & H1 & H2 & H3 & H4).
  exists shown. repeat split; try assumption.
  apply H4. simpl. intuition discriminate.
Defined.

(** ** More on [backmapping] *)

(** With a reference longitude and a non-zero speed, [backmapping]
    returns a separation that is the raw difference
    [lon + alpha - reference_long] moved by at most one turn; when the
    raw difference is within 540 degrees of zero, the separation lies
    in [-180, 180].  Without a reference longitude the separation is
    [np.nan]. *)
Theorem backmapping_sep_range :
  forall (pos : SkyCoord) (date : string) (rl vsw : Q),
    ~ vsw == 0 ->
    -540 <= lon pos + backmapping_alpha (radius pos) vsw - rl ->
    lon pos + backmapping_alpha (radius pos) vsw - rl <= 540 ->
    (exists sep,
        backmapping pos date (Some rl) vsw
        = ret (Some sep, backmapping_alpha (radius pos) vsw)
        /\ -180 <= sep /\ sep <= 180
        /\ (sep == lon pos + backmapping_alpha (radius pos) vsw - rl
            \/ sep == lon pos + backmapping_alpha (radius pos) vsw - rl - 360
            \/ sep == lon pos + backmapping_alpha (radius pos) vsw - rl + 360))
    /\ backmapping pos date None vsw = ret (None, backmapping_alpha (radius pos) vsw).
Proof.
  intros pos date rl vsw Hv Hlo Hhi.
  rewrite !backmapping_defined by exact Hv. unfold backmapping_value.
  split; [|reflexivity].
  set (raw := lon pos + backmapping_alpha (radius pos) vsw - rl) in *.
  exists (backmapping_wrap raw). split; [reflexivity|].
  destruct (backmapping_wrap_range raw Hlo Hhi) as [H1 H2].
  split; [exact H1|]. split; [exact H2|].
  unfold backmapping_wrap.
  destruct (Num.gtb raw 180) eqn:G.
  - apply NumFacts.gtb_true in G.
    assert (L : Num.ltb (raw - 360) (-180) = false) by (apply NumFacts.ltb_false; lra).
    rewrite L. right; left. reflexivity.
  - apply NumFacts.gtb_false in G.
    destruct (Num.ltb raw (-180)) eqn:L.
    + apply NumFacts.ltb_true in L. right; right. rewrite Qabs_neg by lra. ring.
    + left. reflexivity.
Qed.

Lemma backmapping_sep_range_witness :
  (exists sep,
      backmapping (mkSkyCoord 10 5 1) Scenario.date (Some 350) 400
      = ret (Some sep, backmapping_alpha 1 400)
      /\ -180 <= sep /\ sep <= 180
      /\ (sep == 10 + backmapping_alpha 1 400 - 350
          \/ sep == 10 + backmapping_alpha 1 400 - 350 - 360
          \/ sep == 10 + backmapping_alpha 1 400 - 350 + 360))
  /\ backmapping (mkSkyCoord 10 5 1) Scenario.date None 400
     = ret (None, backmapping_alpha 1 400).
Proof.
  apply (backmapping_sep_range (mkSkyCoord 10 5 1) Scenario.date 350 400);
    by_evaluation.
Defined.

(** Taking the body's own longitude as the reference gives back the
    backmapping angle as the separation, as long as that angle lies in
    [-180, 180]; above 180 a turn is taken off. *)
Theorem backmapping_own_longitude :
  forall (pos : SkyCoord) (date : string) (vsw : Q),
    ~ vsw == 0 ->
    exists sep,
      backmapping pos date (Some (lon pos)) vsw
      = ret (Some sep, backmapping_alpha (radius pos) vsw)
      /\ (-180 <= backmapping_alpha (radius pos) vsw ->
          backmapping_alpha (radius pos) vsw <= 180 ->
          sep == backmapping_alpha (radius pos) vsw)
      /\ (180 < backmapping_alpha (radius pos) vsw ->
          backmapping_alpha (radius pos) vsw <= 540 ->
          sep == backmapping_alpha (radius pos) vsw - 360).
Proof.
  intros pos date vsw Hv.
  rewrite backmapping_defined by exact Hv. unfold backmapping_value.
  set (a := backmapping_alpha (radius pos) vsw).
  exists (backmapping_wrap (lon pos + a - lon pos)). split; [reflexivity|].
  unfold backmapping_wrap. split.
  - intros Hlo Hhi.
    assert (G : Num.gtb (lon pos + a - lon pos) 180 = false)
      by (apply NumFacts.gtb_false; lra).
    assert (L : Num.ltb (lon pos + a - lon pos) (-180) = false)
      by (apply NumFacts.ltb_false; lra).
    rewrite G, L. ring.
  - intros Hlo Hhi.
    assert (G : Num.gtb (lon pos + a - lon pos) 180 = true)
      by (apply NumFacts.gtb_true; lra).
    assert (L : Num.ltb (lon pos + a - lon pos - 360) (-180) = false)
      by (apply NumFacts.ltb_false; lra).
    rewrite G, L. ring.
Qed.

Lemma backmapping_own_longitude_witness :
  exists sep,
    backmapping (mkSkyCoord 10 5 1) Scenario.date (Some 10) 400
    = ret (Some sep, backmapping_alpha 1 400)
    /\ sep == backmapping_alpha 1 400.
Proof.
  destruct (backmapping_own_longitude (mkSkyCoord 10 5 1) Scenario.date 400)
    as (sep & H1 & H2 & _).
  - discriminate.
  - exists sep. split; [exact H1|]. apply H2; by_evaluation.
Defined.

(** ** More on the constructor *)

(** Earth's own lookup is not recovered, not even when it raises
    [ValueError]: the constructor raises the same exception, having
    asked for nothing else. *)
Theorem earth_lookup_failure_is_fatal :
  forall (cat : string -> outcome Body) (eph : Z -> string -> outcome SkyCoord)
         (date : string) (body_list : list string) (vsw_list : list Q)
         (rl rlat : option Q) (e : exn),
    eph 399%Z date = Raise e ->
    __init__ cat eph date body_list vsw_list rl rlat
    = ([EvHorizons 399 date], Raise e).
Proof.
  intros cat eph date bl vl rl rlat e HE.
  unfold __init__. now rewrite HE, call_raise, bind_raise.
Qed.

Lemma earth_lookup_failure_is_fatal_witness :
  __init__ Scenario.catalog (fun _ _ => Raise ValueError) Scenario.date
    ["A"%string; "B"%string] [] None None
  = ([EvHorizons 399 Scenario.date], Raise ValueError).
Proof.
  apply (earth_lookup_failure_is_fatal Scenario.catalog
           (fun _ _ => Raise ValueError) Scenario.date
           ["A"%string; "B"%string] [] None None ValueError).
  reflexivity.
Defined.

Lemma bind_Ok_inv {A B} (m : io A) (k : A -> io B) (t : list event) (b : B) :
  bind m k = (t, Ok b) ->
  exists t1 a t2, m = (t1, Ok a) /\ k a = (t2, Ok b) /\ t = t1 ++ t2.
Proof.
  destruct m as [t1 [a|e]]; [|discriminate].
  rewrite bind_ok. intro H. injection H as Ht Hr.
  exists t1, a, (trace (k a)). split; [reflexivity|]. split; [|now symmetry].
  rewrite (pair_io (k a)). now rewrite Hr.
Qed.

Lemma np_max_Ok_inv (l : list Q) (t : list event) (m : Q) :
  np_max l = (t, Ok m) ->
  t = [] /\ l <> [] /\ In m l /\ (forall x, In x l -> x <= m).
Proof.
  intro H. destruct l as [|a l]; [discriminate|].
  destruct (np_max_spec (a :: l)) as (m' & Hm & Hin & Hall); [discriminate|].
  rewrite Hm in H. injection H as <- <-.
  repeat split; [discriminate | exact Hin | exact Hall].
Qed.

Lemma pd_DataFrame_Ok_inv (c0 : list string) (c1 c2 c3 c4 c5 : list Q)
    (t : list event) (df : DataFrame) :
  pd_DataFrame c0 c1 c2 c3 c4 c5 = (t, Ok df) ->
  t = [] /\ df = mkDataFrame c0 c1 c2 c3 c4 c5
  /\ List.length c1 = List.length c0 /\ List.length c2 = List.length c0
  /\ List.length c3 = List.length c0 /\ List.length c4 = List.length c0
  /\ List.length c5 = List.length c0.
Proof.
  unfold pd_DataFrame.
  destruct (List.length c1 =? List.length c0)%nat eqn:E1; [|discriminate].
  destruct (List.length c2 =? List.length c0)%nat eqn:E2; [|discriminate].
  destruct (List.length c3 =? List.length c0)%nat eqn:E3; [|discriminate].
  destruct (List.length c4 =? List.length c0)%nat eqn:E4; [|discriminate].
  destruct (List.length c5 =? List.length c0)%nat eqn:E5; [|discriminate].
  cbn [andb]. intro H. injection H as <- <-.
  apply Nat.eqb_eq in E1, E2, E3, E4, E5. repeat split; assumption.
Qed.

(** What a run that returns went through. *)
Lemma init_Ok_inv (cat : string -> outcome Body) (eph : Z -> string -> outcome SkyCoord)
    (date : string) (bl : list string) (vl : list Q) (rl rlat : option Q)
    (t : list event) (obj : HeliosphericConstellation) (st : locals) :
  __init__ cat eph date bl vl rl rlat = (t, Ok (obj, st)) ->
  exists pE tl m,
    eph 399%Z date = Ok pE
    /\ loop cat eph date rl rlat pE (default_vsw_list bl vl) 0 bl locals0 = (tl, Ok st)
    /\ t = EvHorizons 399 date :: tl
    /\ np_max (body_dist_list st) = ret m
    /\ obj = mkConstellation date rl rlat pE (bodies_dict st) m
               (mkDataFrame (dict_keys (bodies_dict st))
                  (np_around (body_lon_list st)) (np_around (body_lat_list st))
                  (np_around2 (body_dist_list st))
                  (np_around (longsep_E_list st)) (np_around (latsep_E_list st)))
    /\ List.length (body_lon_list st) = List.length (bodies_dict st)
    /\ List.length (body_lat_list st) = List.length (bodies_dict st)
    /\ List.length (body_dist_list st) = List.length (bodies_dict st)
    /\ List.length (longsep_E_list st) = List.length (bodies_dict st)
    /\ List.length (latsep_E_list st) = List.length (bodies_dict st).
Proof.
  unfold __init__. intro H.
  apply bind_Ok_inv in H as (t1 & pE & t2 & Hcall & H & ->).
  destruct (eph 399%Z date) as [pE'|e]; [|discriminate].
  rewrite call_ok in Hcall. injection Hcall as <- <-.
  cbn zeta in H.
  apply bind_Ok_inv in H as (tl & st' & t3 & Hloop & H & ->).
  apply bind_Ok_inv in H as (t4 & m & t5 & Hmax & H & ->).
  apply bind_Ok_inv in H as (t6 & df & t7 & Hdf & H & ->).
  injection H as <- <- <-.
  pose proof (np_max_Ok_inv _ _ _ Hmax) as (-> & Hne & Hin & Hall).
  apply pd_DataFrame_Ok_inv in Hdf as (-> & -> & L1 & L2 & L3 & L4 & L5).
  unfold np_around, np_around2, dict_keys in L1, L2, L3, L4, L5.
  rewrite !length_map in L1, L2, L3, L4, L5.
  exists pE', tl, m. cbn [app]. rewrite !app_nil_r.
  repeat split; assumption.
Qed.

(** Whatever the inputs, a constructor that returns leaves a
    consistent object: Earth's position is the one the ephemeris
    service gave; the constellation is not empty; the table has one row
    per entry of [body_dict], named after its keys in their order; and
    [max_dist] is one of the recorded distances and bounds them all. *)
Theorem constructed_object_is_consistent :
  forall (cat : string -> outcome Body) (eph : Z -> string -> outcome SkyCoord)
         (date : string) (body_list : list string) (vsw_list : list Q)
         (rl rlat : option Q) (t : list event)
         (obj : HeliosphericConstellation) (st : locals),
    __init__ cat eph date body_list vsw_list rl rlat = (t, Ok (obj, st)) ->
    eph 399%Z date = Ok (pos_E obj)
    /\ body_dict obj <> []
    /\ col_Body (coord_table obj) = dict_keys (body_dict obj)
    /\ List.length (col_Longitude (coord_table obj)) = List.length (body_dict obj)
    /\ List.length (col_Latitude (coord_table obj)) = List.length (body_dict obj)
    /\ List.length (col_Distance (coord_table obj)) = List.length (body_dict obj)
    /\ List.length (col_longsep_E (coord_table obj)) = List.length (body_dict obj)
    /\ List.length (col_latsep_E (coord_table obj)) = List.length (body_dict obj)
    /\ List.length (body_dist_list st) = List.length (body_dict obj)
    /\ In (max_dist obj) (body_dist_list st)
    /\ (forall x, In x (body_dist_list st) -> x <= max_dist obj).
Proof.
  intros cat eph date bl vl rl rlat t obj st H.
  apply init_Ok_inv in H
    as (pE & tl & m & HE & _ & _ & Hmax & -> & L1 & L2 & L3 & L4 & L5).
  apply np_max_Ok_inv in Hmax as (_ & Hne & Hin & Hall).
  cbn [pos_E body_dict coord_table max_dist col_Body col_Longitude col_Latitude
       col_Distance col_longsep_E col_latsep_E].
  unfold np_around, np_around2. rewrite !length_map.
  repeat split; try assumption.
  intro E. rewrite E in L3. cbn [List.length] in L3.
  destruct (body_dist_list st); [congruence | discriminate].
Qed.

Lemma constructed_object_is_consistent_witness :
  exists t obj st,
    __init__ Scenario.catalog Scenario.ephemeris Scenario.date
      ["A"%string; "X"%string; "B"%string] [] None None = (t, Ok (obj, st))
    /\ body_dict obj <> []
    /\ col_Body (coord_table obj) = dict_keys (body_dict obj)
    /\ List.length (col_Longitude (coord_table obj)) = List.length (body_dict obj)
    /\ In (max_dist obj) (body_dist_list st).
Proof.
  destruct (__init__ Scenario.catalog Scenario.ephemeris Scenario.date
              ["A"%string; "X"%string; "B"%string] [] None None)
    as [t [[obj st]|e]] eqn:E.
  - exists t, obj, st. split; [reflexivity|].
    destruct (constructed_object_is_consistent _ _ _ _ _ _ _ _ _ _ E)
      as (_ & H1 & H2 & H3 & _ & _ & _ & _ & _ & H4 & _).
    repeat split; assumption.
  - vm_compute in E. discriminate E.
Defined.

(** ** The rows of a constellation *)

Lemma status_resolved_inv (cat : string -> outcome Body)
    (eph : Z -> string -> outcome SkyCoord) (date n : string) (b : Body) (p : SkyCoord) :
  status_of cat eph date n = Resolved b p ->
  cat n = Ok b /\ eph (body_id b) date = Ok p.
Proof.
  unfold status_of. destruct (cat n) as [b'|e]; [|discriminate].
  destruct (eph (body_id b') date) as [p'|[]] eqn:E; try discriminate.
  intro H. injection H as <- <-. split; [reflexivity | exact E].
Qed.

(** A list computed row by row from the resolved bodies pairs up with
    their names. *)
Lemma resolved_Forall2 (cat : string -> outcome Body)
    (eph : Z -> string -> outcome SkyCoord) (date : string)
    (F : SkyCoord -> Q) (bl : list string) : forall i,
  Forall2 (fun n x => exists b p, status_of cat eph date n = Resolved b p /\ x = F p)
    (filter (fun n => is_resolved (status_of cat eph date n)) bl)
    (map (fun r => F (snd r)) (resolved cat eph date i bl)).
Proof.
  induction bl as [|n rest IH]; intro i; [constructor|].
  cbn [resolved filter].
  destruct (status_of cat eph date n) as [e| |e|b p] eqn:S;
    cbn [is_resolved map fst snd]; try apply IH.
  constructor; [|apply IH]. now exists b, p.
Qed.

Lemma Forall2_weaken {A B} (R R' : A -> B -> Prop) (l : list A) (l' : list B) :
  (forall a b, R a b -> R' a b) -> Forall2 R l l' -> Forall2 R' l l'.
Proof. intros H F. induction F; constructor; auto. Qed.

Lemma some_resolved (cat : string -> outcome Body)
    (eph : Z -> string -> outcome SkyCoord) (date : string) (bl : list string) :
  existsb (fun n => is_resolved (status_of cat eph date n)) bl = true ->
  resolved cat eph date 0 bl <> [].
Proof.
  intros H E. apply existsb_exists in H as (n & Hn & Hr).
  pose proof (resolved_names cat eph date bl 0) as HN.
  rewrite E in HN. cbn [map] in HN.
  assert (Hin : In n (filter (fun n => is_resolved (status_of cat eph date n)) bl))
    by (apply filter_In; split; assumption).
  rewrite <- HN in Hin. destruct Hin.
Qed.

(** The run of [init_ok], with the lists and the table spelled out
    over the resolved bodies. *)
Lemma init_rows (cat : string -> outcome Body) (eph : Z -> string -> outcome SkyCoord)
    (date : string) (bl : list string) (vl : list Q) (rl rlat : option Q)
    (pE : SkyCoord) :
  eph 399%Z date = Ok pE ->
  NoDup bl ->
  forallb (fun n => recoverable (status_of cat eph date n)) bl = true ->
  existsb (fun n => is_resolved (status_of cat eph date n)) bl = true ->
  speeds_ok bl vl = true ->
  exists t obj st,
    __init__ cat eph date bl vl rl rlat = (t, Ok (obj, st))
    /\ extends pE (default_vsw_list bl vl) locals0 st (resolved cat eph date 0 bl)
    /\ body_dict obj = bodies_dict st
    /\ coord_table obj
       = mkDataFrame (dict_keys (bodies_dict st))
           (np_around (body_lon_list st)) (np_around (body_lat_list st))
           (np_around2 (body_dist_list st))
           (np_around (longsep_E_list st)) (np_around (latsep_E_list st))
    /\ dict_keys (bodies_dict st)
       = filter (fun n => is_resolved (status_of cat eph date n)) bl
    /\ (forall n, In n bl -> status_of cat eph date n = NoEphemeris ->
          In (EvPrint (no_ephemeris_message n date)) t).
Proof.
  intros HE Hnd Hrec Hex Hsp.
  destruct (init_ok cat eph date bl vl rl rlat pE HE Hnd)
    as (t & obj & st & Hrun & Hext & Hd & _ & _ & _ & Hprint).
  - now apply forallb_forall.
  - now apply some_resolved.
  - exact Hsp.
  - exists (EvHorizons 399 date :: t), obj, st.
    pose proof (init_Ok_inv _ _ _ _ _ _ _ _ _ _ Hrun)
      as (pE' & tl & m & _ & _ & _ & _ & Hobj & _).
    split; [exact Hrun|]. split; [exact Hext|]. split; [exact Hd|].
    split; [rewrite Hobj; reflexivity|]. split.
    + destruct Hext as (K & _).
      change (dict_keys (bodies_dict locals0)) with (@nil string) in K.
      cbn [app] in K. rewrite K. apply resolved_names.
    + intros n Hn Sn. right. now apply Hprint.
Qed.

(** Earth resolves, the names are distinct, every body is resolved or
    refused with [ValueError] (any number of either, at least one
    resolved) and the speeds are usable.  Then construction returns;
    [body_dict] and the table have the resolved bodies, and only them,
    in the order of the input list; each row holds the rounded
    longitude, latitude, distance (two decimals) and separations from
    Earth of its body; and every refused body has its diagnostic. *)
Theorem table_rows_follow_input_order :
  forall (cat : string -> outcome Body) (eph : Z -> string -> outcome SkyCoord)
         (date : string) (body_list : list string) (vsw_list : list Q)
         (rl rlat : option Q) (pE : SkyCoord),
    eph 399%Z date = Ok pE ->
    NoDup body_list ->
    forallb (fun n => recoverable (status_of cat eph date n)) body_list = true ->
    existsb (fun n => is_resolved (status_of cat eph date n)) body_list = true ->
    speeds_ok body_list vsw_list = true ->
    let names := filter (fun n => is_resolved (status_of cat eph date n)) body_list in
    let row (F : SkyCoord -> Q) (n : string) (x : Q) :=
      exists b p, status_of cat eph date n = Resolved b p /\ x = F p in
    exists t obj st,
      __init__ cat eph date body_list vsw_list rl rlat = (t, Ok (obj, st))
      /\ dict_keys (body_dict obj) = names
      /\ col_Body (coord_table obj) = names
      /\ Forall2 (row (fun p => inject_Z (rint (lon p))))
           names (col_Longitude (coord_table obj))
      /\ Forall2 (row (fun p => inject_Z (rint (lat p))))
           names (col_Latitude (coord_table obj))
      /\ Forall2 (row (fun p => inject_Z (rint (radius p * 100)) / 100))
           names (col_Distance (coord_table obj))
      /\ Forall2 (row (fun p => inject_Z (rint (wrap_gt180 (lon p - lon pE)))))
           names (col_longsep_E (coord_table obj))
      /\ Forall2 (row (fun p => inject_Z (rint (lat p - lat pE))))
           names (col_latsep_E (coord_table obj))
      /\ (forall n, In n body_list -> status_of cat eph date n = NoEphemeris ->
            In (EvPrint (no_ephemeris_message n date)) t).
Proof.
  intros cat eph date bl vl rl rlat pE HE Hnd Hrec Hex Hsp names row.
  destruct (init_rows cat eph date bl vl rl rlat pE HE Hnd Hrec Hex Hsp)
    as (t & obj & st & Hrun & Hext & Hd & Htab & Hkeys & Hprint).
  destruct Hext as (_ & L1 & L2 & L3 & L4 & L5 & _).
  exists t, obj, st. rewrite Hd, Htab.
  cbn [col_Body col_Longitude col_Latitude col_Distance col_longsep_E col_latsep_E].
  split; [exact Hrun|]. split; [exact Hkeys|]. split; [exact Hkeys|].
  unfold np_around, np_around2. rewrite L1, L2, L3, L4, L5.
  change (body_lon_list locals0) with (@nil Q).
  change (body_lat_list locals0) with (@nil Q).
  change (body_dist_list locals0) with (@nil Q).
  change (longsep_E_list locals0) with (@nil Q).
  change (latsep_E_list locals0) with (@nil Q).
  cbn [app]. rewrite !map_map. unfold row, names.
  split; [exact (resolved_Forall2 cat eph date
                   (fun p => inject_Z (rint (lon p))) bl 0)|].
  split; [exact (resolved_Forall2 cat eph date
                   (fun p => inject_Z (rint (lat p))) bl 0)|].
  split; [exact (resolved_Forall2 cat eph date
                   (fun p => inject_Z (rint (radius p * 100)) / 100) bl 0)|].
  split; [exact (resolved_Forall2 cat eph date
                   (fun p => inject_Z (rint (wrap_gt180 (lon p - lon pE)))) bl 0)|].
  split; [exact (resolved_Forall2 cat eph date
                   (fun p => inject_Z (rint (lat p - lat pE))) bl 0)|].
  exact Hprint.
Qed.

Lemma table_rows_follow_input_order_witness :
  exists t obj st,
    __init__ Scenario.catalog Scenario.ephemeris Scenario.date
      ["A"%string; "X"%string; "B"%string] [] None None = (t, Ok (obj, st))
    /\ dict_keys (body_dict obj) = ["A"%string; "B"%string]
    /\ col_Body (coord_table obj) = ["A"%string; "B"%string]
    /\ In (EvPrint (no_ephemeris_message "X" Scenario.date)) t.
Proof.
  destruct (table_rows_follow_input_order Scenario.catalog Scenario.ephemeris
              Scenario.date ["A"%string; "X"%string; "B"%string] [] None None
              (mkSkyCoord 350 0 1))
    as (t & obj & st & H1 & H2 & H3 & _ & _ & _ & _ & _ & H4).
  - reflexivity.
  - distinct_names.
  - reflexivity.
  - reflexivity.
  - reflexivity.
  - exists t, obj, st. split; [exact H1|]. split; [exact H2|]. split; [exact H3|].
    apply H4; [simpl; tauto | reflexivity].
Defined.

Lemma round2_close (x : Q) :
  x - 0.005 <= inject_Z (rint (x * 100)) / 100
  /\ inject_Z (rint (x * 100)) / 100 <= x + 0.005.
Proof.
  destruct (rint_close (x * 100)) as [Hlo Hhi]. split.
  - apply Qle_shift_div_l; [reflexivity | lra].
  - apply Qle_shift_div_r; [reflexivity | lra].
Qed.

(** Under the same conditions the table is accurate: the longitude and
    latitude shown for a body are within half a degree of the
    ephemeris values, the latitude separation within half a degree of
    the difference to Earth's latitude, and the distance within 0.005
    AU. *)
Theorem table_is_accurate :
  forall (cat : string -> outcome Body) (eph : Z -> string -> outcome SkyCoord)
         (date : string) (body_list : list string) (vsw_list : list Q)
         (rl rlat : option Q) (pE : SkyCoord),
    eph 399%Z date = Ok pE ->
    NoDup body_list ->
    forallb (fun n => recoverable (status_of cat eph date n)) body_list = true ->
    existsb (fun n => is_resolved (status_of cat eph date n)) body_list = true ->
    speeds_ok body_list vsw_list = true ->
    let names := filter (fun n => is_resolved (status_of cat eph date n)) body_list in
    let near (F : SkyCoord -> Q) (eps : Q) (n : string) (x : Q) :=
      exists b p, eph (body_id b) date = Ok p /\ cat n = Ok b
                  /\ F p - eps <= x /\ x <= F p + eps in
    exists t obj st,
      __init__ cat eph date body_list vsw_list rl rlat = (t, Ok (obj, st))
      /\ Forall2 (near lon (1 # 2)) names (col_Longitude (coord_table obj))
      /\ Forall2 (near lat (1 # 2)) names (col_Latitude (coord_table obj))
      /\ Forall2 (near radius 0.005) names (col_Distance (coord_table obj))
      /\ Forall2 (near (fun p => lat p - lat pE) (1 # 2))
           names (col_latsep_E (coord_table obj)).
Proof.
  intros cat eph date bl vl rl rlat pE HE Hnd Hrec Hex Hsp names near.
  destruct (init_rows cat eph date bl vl rl rlat pE HE Hnd Hrec Hex Hsp)
    as (t & obj & st & Hrun & Hext & Hd & Htab & Hkeys & Hprint).
  destruct Hext as (_ & L1 & L2 & L3 & _ & L5 & _).
  exists t, obj, st. rewrite Htab.
  cbn [col_Longitude col_Latitude col_Distance col_latsep_E].
  split; [exact Hrun|].
  unfold np_around, np_around2. rewrite L1, L2, L3, L5.
  change (body_lon_list locals0) with (@nil Q).
  change (body_lat_list locals0) with (@nil Q).
  change (body_dist_list locals0) with (@nil Q).
  change (latsep_E_list locals0) with (@nil Q).
  cbn [app]. rewrite !map_map. unfold near, names.
  assert (W : forall (F G : SkyCoord -> Q) (eps : Q),
             (forall p, F p - eps <= G p /\ G p <= F p + eps) ->
             forall n x,
               (exists b p, status_of cat eph date n = Resolved b p /\ x = G p) ->
               exists b p, eph (body_id b) date = Ok p /\ cat n = Ok b
                           /\ F p - eps <= x /\ x <= F p + eps).
  { intros F G eps HFG n x (b & p & S & ->).
    apply status_resolved_inv in S as [Hc Hp].
    exists b, p. destruct (HFG p). repeat split; assumption. }
  split; [|split; [|split]].
  - eapply Forall2_weaken;
      [apply (W lon (fun p => inject_Z (rint (lon p)))); intro p; apply rint_close|].
    apply resolved_Forall2.
  - eapply Forall2_weaken;
      [apply (W lat (fun p => inject_Z (rint (lat p)))); intro p; apply rint_close|].
    apply resolved_Forall2.
  - eapply Forall2_weaken;
      [apply (W radius (fun p => inject_Z (rint (radius p * 100)) / 100));
       intro p; apply round2_close|].
    apply resolved_Forall2.
  - eapply Forall2_weaken;
      [apply (W (fun p => lat p - lat pE)
                (fun p => inject_Z (rint (lat p - lat pE))));
       intro p; apply rint_close|].
    apply resolved_Forall2.
Qed.

Lemma table_is_accurate_witness :
  exists t obj st,
    __init__ Scenario.catalog Scenario.ephemeris Scenario.date
      ["A"%string; "X"%string; "B"%string] [] None None = (t, Ok (obj, st))
    /\ List.length (col_Distance (coord_table obj)) = 2%nat.
Proof.
  destruct (table_is_accurate Scenario.catalog Scenario.ephemeris
              Scenario.date ["A"%string; "X"%string; "B"%string] [] None None
              (mkSkyCoord 350 0 1))
    as (t & obj & st & H1 & _ & _ & H2 & _).
  - reflexivity.
  - distinct_names.
  - reflexivity.
  - reflexivity.
  - reflexivity.
  - exists t, obj, st. split; [exact H1|].
    apply Forall2_length in H2. rewrite <- H2. reflexivity.
Defined.

Lemma wrap_gt180_cases (x : Q) :
  (wrap_gt180 x = x /\ x <= 180) \/ (wrap_gt180 x = x - 360 /\ 180 < x).
Proof.
  unfold wrap_gt180. destruct (Num.gtb x 180) eqn:G.
  - apply NumFacts.gtb_true in G. now right.
  - apply NumFacts.gtb_false in G. now left.
Qed.

(** What the constructor does guarantee about the separation from
    Earth.  With longitudes in [0, 360), as the ephemeris service gives
    them, the stored longitude separation of a body is its longitude
    minus Earth's, less one turn when that exceeds 180: never above
    180, above -360, and above -180 whenever the raw difference is.
    The latitude separation is the plain difference. *)
Theorem earth_separation_of_rows :
  forall (cat : string -> outcome Body) (eph : Z -> string -> outcome SkyCoord)
         (date : string) (body_list : list string) (vsw_list : list Q)
         (rl rlat : option Q) (pE : SkyCoord),
    eph 399%Z date = Ok pE ->
    NoDup body_list ->
    forallb (fun n => recoverable (status_of cat eph date n)) body_list = true ->
    existsb (fun n => is_resolved (status_of cat eph date n)) body_list = true ->
    speeds_ok body_list vsw_list = true ->
    (forall id p, eph id date = Ok p -> 0 <= lon p /\ lon p < 360) ->
    let names := filter (fun n => is_resolved (status_of cat eph date n)) body_list in
    exists t obj st,
      __init__ cat eph date body_list vsw_list rl rlat = (t, Ok (obj, st))
      /\ Forall2 (fun n s =>
                    exists b p, cat n = Ok b /\ eph (body_id b) date = Ok p
                      /\ (s = lon p - lon pE \/ s = lon p - lon pE - 360)
                      /\ -360 < s /\ s <= 180
                      /\ (-180 < lon p - lon pE -> -180 < s))
           names (longsep_E_list st)
      /\ Forall2 (fun n s =>
                    exists b p, cat n = Ok b /\ eph (body_id b) date = Ok p
                      /\ s = lat p - lat pE)
           names (latsep_E_list st).
Proof.
  intros cat eph date bl vl rl rlat pE HE Hnd Hrec Hex Hsp Hlon names.
  destruct (init_rows cat eph date bl vl rl rlat pE HE Hnd Hrec Hex Hsp)
    as (t & obj & st & Hrun & Hext & _).
  destruct Hext as (_ & _ & _ & _ & L4 & L5 & _).
  exists t, obj, st. split; [exact Hrun|].
  rewrite L4, L5.
  change (longsep_E_list locals0) with (@nil Q).
  change (latsep_E_list locals0) with (@nil Q). cbn [app].
  destruct (Hlon _ _ HE) as [HE0 HE1].
  split.
  - eapply Forall2_weaken;
      [|apply (resolved_Forall2 cat eph date
                 (fun p => wrap_gt180 (lon p - lon pE)))].
    intros n s (b & p & S & ->).
    apply status_resolved_inv in S as [Hc Hp].
    destruct (Hlon _ _ Hp) as [Hp0 Hp1].
    exists b, p. split; [exact Hc|]. split; [exact Hp|].
    destruct (wrap_gt180_cases (lon p - lon pE)) as [[-> Hle]|[-> Hgt]].
    + repeat split; try lra. now left.
    + repeat split; try lra. now right.
  - eapply Forall2_weaken;
      [|apply (resolved_Forall2 cat eph date (fun p => lat p - lat pE))].
    intros n s (b & p & S & ->).
    apply status_resolved_inv in S as [Hc Hp].
    now exists b, p.
Qed.

Lemma earth_separation_of_rows_witness :
  exists t obj st,
    __init__ Scenario.catalog Scenario.ephemeris Scenario.date
      ["A"%string; "X"%string; "B"%string] [] None None = (t, Ok (obj, st))
    /\ List.length (longsep_E_list st) = 2%nat
    /\ List.length (latsep_E_list st) = 2%nat.
Proof.
  destruct (earth_separation_of_rows Scenario.catalog Scenario.ephemeris
              Scenario.date ["A"%string; "X"%string; "B"%string] [] None None
              (mkSkyCoord 350 0 1))
    as (t & obj & st & H1 & H2 & H3).
  - reflexivity.
  - distinct_names.
  - reflexivity.
  - reflexivity.
  - reflexivity.
  - intros id p. unfold Scenario.ephemeris.
    destruct (id =? 399)%Z; [intros [= <-]; split; by_evaluation|].
    destruct (id =? 1)%Z; [intros [= <-]; split; by_evaluation|].
    destruct (id =? 2)%Z; [intros [= <-]; split; by_evaluation|].
    discriminate.
  - exists t, obj, st. split; [exact H1|].
    apply Forall2_length in H2, H3. rewrite <- H2, <- H3. split; reflexivity.
Defined.

Lemma alpha_400_bounds (r : Q) :
  0 <= r -> r <= 5.8 ->
  0 <= backmapping_alpha r 400 /\ backmapping_alpha r 400 < 360.
Proof.
  intros H0 H1.
  assert (E : backmapping_alpha r 400 == (498659569 # 8121600) * r).
  { rewrite backmapping_alpha_eq.
    unfold rate_deg_per_s, AU, Num.const_au_value. field. }
  rewrite E. lra.
Qed.

Lemma wrap_gt360_cases (x : Q) :
  (wrap_gt360 x = x /\ x <= 360) \/ (wrap_gt360 x = x - 360 /\ 360 < x).
Proof.
  unfold wrap_gt360. destruct (Num.gtb x 360) eqn:G.
  - apply NumFacts.gtb_true in G. now right.
  - apply NumFacts.gtb_false in G. now left.
Qed.

(** What the constructor does guarantee about the footpoints.  With
    the default speed of 400 km/s, longitudes in [0, 360) and radial
    distances up to 5.8 AU, the stored footpoint longitude of a body is
    [lon + alpha], less one turn when that exceeds 360, and lies in
    [0, 360]; the value 360 itself is kept. *)
Theorem footpoints_of_rows :
  forall (cat : string -> outcome Body) (eph : Z -> string -> outcome SkyCoord)
         (date : string) (body_list : list string)
         (rl rlat : option Q) (pE : SkyCoord),
    eph 399%Z date = Ok pE ->
    NoDup body_list ->
    forallb (fun n => recoverable (status_of cat eph date n)) body_list = true ->
    existsb (fun n => is_resolved (status_of cat eph date n)) body_list = true ->
    (forall id p, eph id date = Ok p ->
       0 <= lon p /\ lon p < 360 /\ 0 <= radius p /\ radius p <= 5.8) ->
    let names := filter (fun n => is_resolved (status_of cat eph date n)) body_list in
    exists t obj st,
      __init__ cat eph date body_list [] rl rlat = (t, Ok (obj, st))
      /\ Forall2 (fun n x =>
                    exists b p, cat n = Ok b /\ eph (body_id b) date = Ok p
                      /\ (x = lon p + backmapping_alpha (radius p) 400
                          \/ x = lon p + backmapping_alpha (radius p) 400 - 360)
                      /\ 0 <= x /\ x <= 360)
           names (footp_long_list st).
Proof.
  intros cat eph date bl rl rlat pE HE Hnd Hrec Hex Hpos names.
  destruct (init_rows cat eph date bl [] rl rlat pE HE Hnd Hrec Hex eq_refl)
    as (t & obj & st & Hrun & Hext & _).
  destruct Hext as (_ & _ & _ & _ & _ & _ & _ & L8).
  change (default_vsw_list bl []) with (repeat 400 (List.length bl)) in L8.
  change (footp_long_list locals0) with (@nil Q) in L8. cbn [app] in L8.
  rewrite (map_ext_in _
             (fun r => wrap_gt360 (lon (snd r) + backmapping_alpha (radius (snd r)) 400)))
    in L8.
  2:{ intros r Hr. apply resolved_index in Hr.
      rewrite nth_repeat_lt by lia. reflexivity. }
  exists t, obj, st. split; [exact Hrun|]. rewrite L8.
  eapply Forall2_weaken;
    [|apply (resolved_Forall2 cat eph date
               (fun p => wrap_gt360 (lon p + backmapping_alpha (radius p) 400)))].
  intros n x (b & p & S & ->).
  apply status_resolved_inv in S as [Hc Hp].
  destruct (Hpos _ _ Hp) as (Hl0 & Hl1 & Hr0 & Hr1).
  destruct (alpha_400_bounds (radius p) Hr0 Hr1) as [Ha0 Ha1].
  exists b, p. split; [exact Hc|]. split; [exact Hp|].
  destruct (wrap_gt360_cases (lon p + backmapping_alpha (radius p) 400))
    as [[-> Hle]|[-> Hgt]].
  - repeat split; try lra. now left.
  - repeat split; try lra. now right.
Qed.

Lemma footpoints_of_rows_witness :
  exists t obj st,
    __init__ Scenario.catalog Inner.ephemeris Scenario.date
      ["A"%string; "X"%string; "B"%string] [] None None = (t, Ok (obj, st))
    /\ List.length (footp_long_list st) = 2%nat.
Proof.
  destruct (footpoints_of_rows Scenario.catalog Inner.ephemeris
              Scenario.date ["A"%string; "X"%string; "B"%string] None None
              (mkSkyCoord 350 0 1))
    as (t & obj & st & H1 & H2).
  - reflexivity.
  - distinct_names.
  - reflexivity.
  - reflexivity.
  - intros id p. unfold Inner.ephemeris.
    destruct (id =? 399)%Z; [intros [= <-]; repeat split; by_evaluation|].
    destruct (id =? 1)%Z; [intros [= <-]; repeat split; by_evaluation|].
    destruct (id =? 2)%Z; [intros [= <-]; repeat split; by_evaluation|].
    discriminate.
  - exists t, obj, st. split; [exact H1|].
    apply Forall2_length in H2. rewrite <- H2. reflexivity.
Defined.

(** ** Runs that return, whatever the inputs *)

Section AnyRun.

Variable cat : string -> outcome Body.
Variable eph : Z -> string -> outcome SkyCoord.
Variable d : string.
Variable rl rlat : option Q.
Variable pE : SkyCoord.
Variable vl : list Q.

Lemma turn_zero_speed i n st b p v :
  status_of cat eph d n = Resolved b p ->
  nth_error vl i = Some v -> v == 0 ->
  loop_body cat eph d rl rlat pE vl i n st
  = ([EvCatalog n; EvHorizons (body_id b) d], Raise ZeroDivisionError).
Proof.
  intros S Hv Hz. apply status_resolved_inv in S as [Hc Hp].
  unfold loop_body. rewrite Hc, call_ok, bind_ok, bind_emit_ret, Hp. cbn iota.
  unfold record_body, getitem, backmapping. rewrite Hv, !bind_ret.
  apply Qeq_bool_iff in Hz. rewrite Hz. reflexivity.
Qed.

(** A turn of the loop that returns either skipped a refused body or
    stored a resolved one that has a non-zero speed. *)
Lemma turn_Ok_inv i n st t st' :
  loop_body cat eph d rl rlat pE vl i n st = (t, Ok st') ->
  (exists b,
      status_of cat eph d n = NoEphemeris /\ cat n = Ok b
      /\ t = [EvCatalog n; EvHorizons (body_id b) d; EvPrint EmptyString;
              EvPrint (no_ephemeris_message n d)]
      /\ st' = with_bodies_dict
                 (dict_del n (dict_set n (fresh_entry b) (bodies_dict st))) st)
  \/ (exists b p v,
         status_of cat eph d n = Resolved b p
         /\ nth_error vl i = Some v /\ ~ v == 0
         /\ t = [EvCatalog n; EvHorizons (body_id b) d]
         /\ st' = store_body rl rlat pE n p v v (backmapping_value p d rl v)
                    (with_bodies_dict (dict_set n (fresh_entry b) (bodies_dict st)) st)).
Proof.
  intro H. destruct (status_of cat eph d n) as [e| |e|b p] eqn:S.
  - rewrite (turn_unknown cat eph d rl rlat pE vl i n st e S) in H. discriminate.
  - destruct (turn_no_ephemeris cat eph d rl rlat pE vl i n st S) as (b & Hc & E).
    rewrite E in H. injection H as <- <-. left. exists b. repeat split; assumption.
  - destruct (turn_broken cat eph d rl rlat pE vl i n st e S) as (b & _ & E).
    rewrite E in H. discriminate.
  - destruct (nth_error vl i) as [v|] eqn:Hv.
    + destruct (Qeq_bool v 0) eqn:Hz.
      * apply Qeq_bool_iff in Hz.
        rewrite (turn_zero_speed i n st b p v S Hv Hz) in H. discriminate.
      * apply Qeq_bool_neq in Hz.
        rewrite (turn_resolved cat eph d rl rlat pE vl i n st b p v S Hv Hz) in H.
        injection H as <- <-. right. exists b, p, v. repeat split; assumption.
    + rewrite (turn_index_error cat eph d rl rlat pE vl i n st b p S Hv) in H.
      discriminate.
Qed.


(** The queries of a returning loop: the catalogue is asked for every
    name in order, the ephemeris for the body the catalogue named. *)
Lemma loop_queries : forall bl i st t st',
  loop cat eph d rl rlat pE vl i bl st = (t, Ok st') ->
  catalog_queries t = bl
  /\ Forall2 (fun n id => exists b, cat n = Ok b /\ id = body_id b)
       bl (horizons_queries t).
Proof.
  induction bl as [|n rest IH]; intros i st t st' H.
  - injection H as <- _. split; [reflexivity | constructor].
  - rewrite loop_cons in H.
    apply bind_Ok_inv in H as (t1 & st1 & t2 & H1 & H2 & ->).
    destruct (IH _ _ _ _ H2) as [Hc Hh].
    unfold catalog_queries, horizons_queries in *. rewrite !flat_map_app, Hc.
    apply turn_Ok_inv in H1
      as [(b & S & Hb & -> & _)|(b & p & v & S & _ & _ & -> & _)].
    + split; [reflexivity|]. cbn [flat_map app]. constructor; [|exact Hh].
      now exists b.
    + apply status_resolved_inv in S as [Hb _].
      split; [reflexivity|]. cbn [flat_map app]. constructor; [|exact Hh].
      now exists b.
Qed.

End AnyRun.

(** Whatever the inputs, a constructor that returns has asked the
    catalogue for every name of the body list, once each and in the
    order of the list, and the ephemeris service for Earth first (id
    399) and then, body after body, for the identifier the catalogue
    gave. *)
Theorem lookups_follow_input_order :
  forall (cat : string -> outcome Body) (eph : Z -> string -> outcome SkyCoord)
         (date : string) (body_list : list string) (vsw_list : list Q)
         (rl rlat : option Q) (t : list event)
         (obj : HeliosphericConstellation) (st : locals),
    __init__ cat eph date body_list vsw_list rl rlat = (t, Ok (obj, st)) ->
    catalog_queries t = body_list
    /\ exists ids,
         horizons_queries t = 399%Z :: ids
         /\ Forall2 (fun n id => exists b, cat n = Ok b /\ id = body_id b)
              body_list ids.
Proof.
  intros cat eph date bl vl rl rlat t obj st H.
  apply init_Ok_inv in H as (pE & tl & m & _ & Hloop & -> & _).
  apply loop_queries in Hloop as [Hc Hh].
  split; [exact Hc|]. exists (horizons_queries tl). split; [reflexivity | exact Hh].
Qed.

Lemma lookups_follow_input_order_witness :
  exists t obj st,
    __init__ Scenario.catalog Scenario.ephemeris Scenario.date
      ["A"%string; "X"%string; "B"%string] [] None None = (t, Ok (obj, st))
    /\ catalog_queries t = ["A"%string; "X"%string; "B"%string]
    /\ exists ids,
         horizons_queries t = 399%Z :: ids
         /\ Forall2 (fun n id => exists b, Scenario.catalog n = Ok b /\ id = body_id b)
              ["A"%string; "X"%string; "B"%string] ids.
Proof.
  destruct (__init__ Scenario.catalog Scenario.ephemeris Scenario.date
              ["A"%string; "X"%string; "B"%string] [] None None)
    as [t [[obj st]|e]] eqn:E.
  - exists t, obj, st. split; [reflexivity|].
    exact (lookups_follow_input_order _ _ _ _ _ _ _ _ _ _ E).
  - vm_compute in E. discriminate E.
Defined.

(** ** What [body_dict] holds *)

Lemma dict_append_set {V} (k : string) (x : V) (v : list V) (d : dict (list V)) :
  dict_append k x (dict_set k v d) = dict_set k (v ++ [x]) d.
Proof.
  induction d as [|[k' v'] d IH].
  - cbn. now rewrite String.eqb_refl.
  - cbn [dict_set]. destruct (String.eqb k k') eqn:E.
    + cbn [dict_append]. now rewrite String.eqb_refl.
    + cbn [dict_append]. rewrite E. now rewrite IH.
Qed.

Lemma dict_set_fresh_app {V} (k : string) (v : V) (d : dict V) :
  ~ In k (dict_keys d) -> dict_set k v d = d ++ [(k, v)].
Proof.
  unfold dict_keys. induction d as [|[k' v'] d IH]; intro H; [reflexivity|].
  cbn [dict_set]. cbn [map fst In] in H.
  destruct (String.eqb_spec k k') as [E|E].
  - exfalso. apply H. left. now symmetry.
  - cbn [app]. f_equal. apply IH. tauto.
Qed.



(** The binding a resolved body ends up with. *)
Lemma store_body_dict (rl rlat : option Q) (pE : SkyCoord) (n : string) (b : Body)
    (p : SkyCoord) (v v107 : Q) (sa : option Q * Q) (st : locals) :
  bodies_dict (store_body rl rlat pE n p v v107 sa
                 (with_bodies_dict (dict_set n (fresh_entry b) (bodies_dict st)) st))
  = dict_set n (entry_of b p v (fst sa) rl) (bodies_dict st).
Proof.
  unfold store_body, with_bodies_dict, entry_of. destruct sa as [sep alpha].
  destruct rl as [r|], rlat as [r'|]; cbn [bodies_dict fst];
    rewrite !dict_append_set, <- ?app_assoc; reflexivity.
Qed.

Lemma store_body_dist (rl rlat : option Q) (pE : SkyCoord) (n : string)
    (p : SkyCoord) (v v107 : Q) (sa : option Q * Q) (st : locals) :
  body_dist_list (store_body rl rlat pE n p v v107 sa st)
  = body_dist_list st ++ [radius p].
Proof.
  unfold store_body. destruct sa as [sep alpha].
  destruct rl, rlat; reflexivity.
Qed.


Section AnyRunEntries.

Variable cat : string -> outcome Body.
Variable eph : Z -> string -> outcome SkyCoord.
Variable d : string.
Variable rl rlat : option Q.
Variable pE : SkyCoord.
Variable vl : list Q.



(** With distinct names that are new to the dictionary, a returning
    loop appends the bindings of the resolved bodies, in order. *)
Lemma loop_bindings : forall bl i st t st',
  NoDup bl ->
  (forall n, In n bl -> ~ In n (dict_keys (bodies_dict st))) ->
  loop cat eph d rl rlat pE vl i bl st = (t, Ok st') ->
  bodies_dict st'
  = bodies_dict st ++ map (binding_of cat d rl vl) (resolved cat eph d i bl).
Proof.
  induction bl as [|n rest IH]; intros i st t st' Hnd Hfresh H.
  - injection H as _ <-. cbn [resolved map]. now rewrite app_nil_r.
  - rewrite loop_cons in H.
    apply bind_Ok_inv in H as (t1 & st1 & t2 & H1 & H2 & _).
    inversion Hnd as [|? ? Hnotin Hnd']; subst.
    assert (Hn : ~ In n (dict_keys (bodies_dict st))) by (apply Hfresh; now left).
    cbn [resolved].
    apply turn_Ok_inv in H1
      as [(b & S & _ & _ & ->)|(b & p & v & S & Hv & Hz & _ & ->)]; rewrite S.
    + erewrite IH; [|exact Hnd'| |exact H2].
      * cbn [with_bodies_dict bodies_dict].
        now rewrite dict_del_set_fresh by exact Hn.
      * intros m Hm. cbn [with_bodies_dict bodies_dict].
        rewrite dict_del_set_fresh by exact Hn. apply Hfresh. now right.
    + assert (Hd : bodies_dict
                     (store_body rl rlat pE n p v v (backmapping_value p d rl v)
                        (with_bodies_dict
                           (dict_set n (fresh_entry b) (bodies_dict st)) st))
                   = bodies_dict st ++ [binding_of cat d rl vl (i, n, p)]).
      { rewrite store_body_dict, dict_set_fresh_app by exact Hn.
        unfold binding_of. cbn [fst snd].
        apply status_resolved_inv in S as [Hc _]. rewrite Hc.
        now rewrite (nth_error_nth _ _ _ Hv). }
      erewrite IH; [|exact Hnd'| |exact H2].
      * rewrite Hd. cbn [map]. now rewrite <- app_assoc.
      * intros m Hm. rewrite Hd. unfold dict_keys. rewrite map_app.
        cbn [map binding_of fst snd]. intro Hin.
        apply in_app_or in Hin as [Hin|[<-|[]]].
        -- revert Hin. apply Hfresh. now right.
        -- contradiction.
Qed.

End AnyRunEntries.

(** ** [plot] on a constructed object *)










(** An object without bodies cannot be plotted: [E_long] and [dist_e]
    are only bound inside the loop over the bodies, and [plot] ends
    with an unbound-variable error, whatever its arguments. *)
Theorem plot_without_bodies_fails :
  forall (self : HeliosphericConstellation)
         (plot_spirals plot_sun_body_line show_earth_centered_coord : bool)
         (reference_vsw : Q),
    body_dict self = [] ->
    plot self plot_spirals plot_sun_body_line show_earth_centered_coord
      reference_vsw = Raise OtherError.
Proof.
  intros self f1 f2 f3 rv H. unfold plot, plot_reference, plot_axes.
  rewrite H. cbn [plot_bodies obind].
  destruct (reference_long self); reflexivity.
Qed.

Lemma plot_without_bodies_fails_witness :
  plot (mkConstellation Scenario.date (Some 20) None (mkSkyCoord 350 0 1) [] 1
          (mkDataFrame [] [] [] [] [] []))
    true false true 400 = Raise OtherError.
Proof.
  apply plot_without_bodies_fails. reflexivity.
Defined.


Lemma resolved_bindings (cat : string -> outcome Body)
    (eph : Z -> string -> outcome SkyCoord) (date : string) (rl : option Q)
    (vl : list Q) (bl : list string) :
  forall i,
    (forall j, (i <= j < i + List.length bl)%nat ->
       exists v, nth_error vl j = Some v /\ ~ v == 0) ->
    Forall2 (fun n kv =>
               fst kv = n
               /\ exists b p v sep,
                    cat n = Ok b /\ eph (body_id b) date = Ok p
                    /\ In v vl /\ ~ v == 0
                    /\ backmapping p date rl v = ret (sep, backmapping_alpha (radius p) v)
                    /\ snd kv
                       = [VInt (body_id b); VStr (name b); VStr (color b); VCoord p;
                          VFloat (Some v); VFloat sep]
                         ++ match rl with Some _ => [VFloat sep] | None => [] end)
      (filter (fun n => is_resolved (status_of cat eph date n)) bl)
      (map (binding_of cat date rl vl) (resolved cat eph date i bl)).
Proof.
  induction bl as [|n rest IH]; intros i Hv; [constructor|].
  assert (Hv' : forall j, (S i <= j < S i + List.length rest)%nat ->
                  exists v, nth_error vl j = Some v /\ ~ v == 0)
    by (intros j Hj; apply Hv; cbn [List.length]; lia).
  cbn [resolved filter].
  destruct (status_of cat eph date n) as [e| |e|b p] eqn:S;
    cbn [is_resolved map]; try (apply IH; exact Hv').
  apply status_resolved_inv in S as [Hc Hp].
  destruct (Hv i) as (v & Hvi & Hz); [cbn [List.length]; lia|].
  constructor; [|apply IH; exact Hv'].
  unfold binding_of. cbn [fst snd]. rewrite Hc, (nth_error_nth _ _ _ Hvi).
  split; [reflexivity|].
  exists b, p, v, (fst (backmapping_value p date rl v)).
  split; [reflexivity|]. split; [exact Hp|].
  split; [eapply nth_error_In; exact Hvi|]. split; [exact Hz|].
  split; [rewrite backmapping_defined by exact Hz; reflexivity | reflexivity].
Qed.

(** What [body_dict] holds.  Under the conditions of
    [table_rows_follow_input_order], the entries of [body_dict] are
    those of the resolved bodies in input order, and the entry of a
    body is the list [[body_id, name, color, pos, vsw, sep]], with
    [sep] once more when a reference longitude is given: identifier,
    name and colour from the catalogue, the position from the
    ephemeris service, a speed of the speed list, and the separation
    [backmapping] returns for them. *)
Theorem body_dict_entries :
  forall (cat : string -> outcome Body) (eph : Z -> string -> outcome SkyCoord)
         (date : string) (body_list : list string) (vsw_list : list Q)
         (rl rlat : option Q) (pE : SkyCoord),
    eph 399%Z date = Ok pE ->
    NoDup body_list ->
    forallb (fun n => recoverable (status_of cat eph date n)) body_list = true ->
    existsb (fun n => is_resolved (status_of cat eph date n)) body_list = true ->
    speeds_ok body_list vsw_list = true ->
    let names := filter (fun n => is_resolved (status_of cat eph date n)) body_list in
    exists t obj st,
      __init__ cat eph date body_list vsw_list rl rlat = (t, Ok (obj, st))
      /\ body_dict obj
         = map (binding_of cat date rl (default_vsw_list body_list vsw_list))
             (resolved cat eph date 0 body_list)
      /\ Forall2 (fun n kv =>
                    fst kv = n
                    /\ exists b p v sep,
                         cat n = Ok b /\ eph (body_id b) date = Ok p
                         /\ In v (default_vsw_list body_list vsw_list) /\ ~ v == 0
                         /\ backmapping p date rl v
                            = ret (sep, backmapping_alpha (radius p) v)
                         /\ snd kv
                            = [VInt (body_id b); VStr (name b); VStr (color b);
                               VCoord p; VFloat (Some v); VFloat sep]
                              ++ match rl with Some _ => [VFloat sep] | None => [] end)
           names (body_dict obj).
Proof.
  intros cat eph date bl vl rl rlat pE HE Hnd Hrec Hex Hsp names.
  destruct (init_rows cat eph date bl vl rl rlat pE HE Hnd Hrec Hex Hsp)
    as (t & obj & st & Hrun & _ & Hd & _).
  pose proof (init_Ok_inv _ _ _ _ _ _ _ _ _ _ Hrun)
    as (pE' & tl & m & HE' & Hloop & _).
  rewrite HE in HE'. injection HE' as <-.
  apply loop_bindings in Hloop; [|exact Hnd | intros n _ []].
  change (bodies_dict locals0) with (@nil (string * list value)) in Hloop.
  cbn [app] in Hloop.
  exists t, obj, st. split; [exact Hrun|]. rewrite Hd, Hloop.
  split; [reflexivity|].
  apply resolved_bindings. apply default_vsw_list_covers. exact Hsp.
Qed.

Lemma body_dict_entries_witness :
  exists t obj st,
    __init__ Scenario.catalog Scenario.ephemeris Scenario.date
      ["A"%string; "X"%string; "B"%string] [] (Some 20) None = (t, Ok (obj, st))
    /\ body_dict obj
       = map (binding_of Scenario.catalog Scenario.date (Some 20)
                (default_vsw_list ["A"%string; "X"%string; "B"%string] []))
           (resolved Scenario.catalog Scenario.ephemeris Scenario.date 0
              ["A"%string; "X"%string; "B"%string]).
Proof.
  destruct (body_dict_entries Scenario.catalog Scenario.ephemeris
              Scenario.date ["A"%string; "X"%string; "B"%string] [] (Some 20) None
              (mkSkyCoord 350 0 1))
    as (t & obj & st & H1 & H2 & _).
  - reflexivity.
  - distinct_names.
  - reflexivity.
  - reflexivity.
  - reflexivity.
  - exists t, obj, st. split; [exact H1 | exact H2].
Defined.



(** ** A name given twice *)

Lemma dict_keys_set_present {V} (k : string) (v : V) (d : dict V) :
  In k (dict_keys d) -> dict_keys (dict_set k v d) = dict_keys d.
Proof.
  unfold dict_keys. induction d as [|[k' v'] d IH]; intro H; [destruct H|].
  cbn [dict_set]. destruct (String.eqb_spec k k') as [E|E].
  - cbn [map fst]. now rewrite E.
  - cbn [map fst In] in *. f_equal. apply IH.
    destruct H as [H|H]; [congruence | exact H].
Qed.

Lemma store_body_lon (rl rlat : option Q) (pE : SkyCoord) (n : string)
    (p : SkyCoord) (v v107 : Q) (sa : option Q * Q) (st : locals) :
  body_lon_list (store_body rl rlat pE n p v v107 sa st)
  = body_lon_list st ++ [lon p].
Proof.
  unfold store_body. destruct sa as [sep alpha].
  destruct rl, rlat; reflexivity.
Qed.

Section AllResolved.

Variable cat : string -> outcome Body.
Variable eph : Z -> string -> outcome SkyCoord.
Variable d : string.
Variable rl rlat : option Q.
Variable pE : SkyCoord.
Variable vl : list Q.

(** Bodies that all resolve, with usable speeds: the loop returns,
    distinct names or not. *)
Lemma loop_resolved_returns : forall bl i st,
  (forall n, In n bl -> is_resolved (status_of cat eph d n) = true) ->
  (forall j, (i <= j < i + List.length bl)%nat ->
     exists v, nth_error vl j = Some v /\ ~ v == 0) ->
  exists t st', loop cat eph d rl rlat pE vl i bl st = (t, Ok st').
Proof.
  induction bl as [|n rest IH]; intros i st Hres Hv.
  - exists [], st. reflexivity.
  - rewrite loop_cons.
    pose proof (Hres n (or_introl eq_refl)) as Sn.
    destruct (status_of cat eph d n) as [e| |e|b p] eqn:S; try discriminate Sn.
    destruct (Hv i) as (v & Hvi & Hz); [cbn [List.length]; lia|].
    rewrite (turn_resolved cat eph d rl rlat pE vl i n st b p v S Hvi Hz), bind_ok.
    edestruct (IH (Datatypes.S i)) as (t & st' & ->).
    + intros m Hm. apply Hres. now right.
    + intros j Hj. apply Hv. cbn [List.length]. lia.
    + eexists _, st'. reflexivity.
Qed.

(** Each of them adds a row; a key is added only for a new name. *)
Lemma loop_resolved_counts : forall bl i st t st',
  (forall n, In n bl -> is_resolved (status_of cat eph d n) = true) ->
  loop cat eph d rl rlat pE vl i bl st = (t, Ok st') ->
  NoDup (dict_keys (bodies_dict st)) ->
  NoDup (dict_keys (bodies_dict st'))
  /\ incl (dict_keys (bodies_dict st')) (dict_keys (bodies_dict st) ++ bl)
  /\ List.length (body_lon_list st')
     = (List.length (body_lon_list st) + List.length bl)%nat
  /\ List.length (body_dist_list st')
     = (List.length (body_dist_list st) + List.length bl)%nat.
Proof.
  induction bl as [|n rest IH]; intros i st t st' Hres H Hnd.
  - injection H as _ <-. rewrite app_nil_r, !Nat.add_0_r.
    repeat split; [exact Hnd | apply incl_refl].
  - rewrite loop_cons in H.
    apply bind_Ok_inv in H as (t1 & st1 & t2 & H1 & H2 & _).
    pose proof (Hres n (or_introl eq_refl)) as Sn.
    apply turn_Ok_inv in H1
      as [(b & S & _)|(b & p & v & S & Hv & Hz & _ & ->)];
      [rewrite S in Sn; discriminate Sn|].
    set (st1 := store_body _ _ _ _ _ _ _ _ _) in *.
    assert (Hk : dict_keys (bodies_dict st1) = dict_keys (bodies_dict st)
                 /\ In n (dict_keys (bodies_dict st))
                 \/ dict_keys (bodies_dict st1) = dict_keys (bodies_dict st) ++ [n]
                    /\ ~ In n (dict_keys (bodies_dict st))).
    { unfold st1. rewrite store_body_dict.
      destruct (in_dec string_dec n (dict_keys (bodies_dict st))) as [Hin|Hout].
      - left. split; [now apply dict_keys_set_present | exact Hin].
      - right. split; [now apply dict_keys_set_fresh | exact Hout]. }
    assert (Hnd1 : NoDup (dict_keys (bodies_dict st1))).
    { destruct Hk as [[-> _]|[-> Hout]]; [exact Hnd|].
      apply NoDup_app; [exact Hnd | constructor; [intros [] | constructor] |].
      intros x Hx [<-|[]]. contradiction. }
    destruct (IH _ _ _ _ (fun m Hm => Hres m (or_intror Hm)) H2 Hnd1)
      as (N & I & L1 & L2).
    split; [exact N|]. split.
    + intros x Hx. apply I in Hx. apply in_app_or in Hx as [Hx|Hx].
      * destruct Hk as [[E _]|[E _]]; rewrite E in Hx.
        -- apply in_or_app. now left.
        -- apply in_app_or in Hx as [Hx|[<-|[]]]; apply in_or_app;
             [now left | right; now left].
      * apply in_or_app. right. now right.
    + rewrite L1, L2. unfold st1.
      rewrite store_body_lon, store_body_dist, !length_app.
      cbn [List.length with_bodies_dict body_lon_list body_dist_list]. lia.
Qed.

End AllResolved.

(** A body list with a repeated name, all of whose bodies resolve: the
    loop ends with one row per element of the list but one entry per
    distinct name, so fewer entries than rows, and the construction of
    the table raises [ValueError]. *)
Theorem repeated_name_fails :
  forall (cat : string -> outcome Body) (eph : Z -> string -> outcome SkyCoord)
         (date : string) (body_list : list string) (vsw_list : list Q)
         (rl rlat : option Q) (pE : SkyCoord),
    eph 399%Z date = Ok pE ->
    forallb (fun n => is_resolved (status_of cat eph date n)) body_list = true ->
    speeds_ok body_list vsw_list = true ->
    ~ NoDup body_list ->
    (exists tl st,
        loop cat eph date rl rlat pE (default_vsw_list body_list vsw_list) 0
          body_list locals0 = (tl, Ok st)
        /\ List.length (body_lon_list st) = List.length body_list
        /\ (List.length (bodies_dict st) < List.length body_list)%nat)
    /\ result (__init__ cat eph date body_list vsw_list rl rlat) = Raise ValueError.
Proof.
  intros cat eph date bl vl rl rlat pE HE Hall Hsp Hdup.
  assert (Hres : forall n, In n bl -> is_resolved (status_of cat eph date n) = true)
    by (now apply forallb_forall).
  destruct (loop_resolved_returns cat eph date rl rlat pE (default_vsw_list bl vl)
              bl 0 locals0 Hres (default_vsw_list_covers bl vl Hsp))
    as (tl & st & Hloop).
  destruct (loop_resolved_counts cat eph date rl rlat pE (default_vsw_list bl vl)
              bl 0 locals0 tl st Hres Hloop) as (N & I & L1 & L2);
    [constructor|].
  change (dict_keys (bodies_dict locals0)) with (@nil string) in I.
  cbn [locals0 body_lon_list body_dist_list List.length app plus] in I, L1, L2.
  assert (Hlt : (List.length (bodies_dict st) < List.length bl)%nat).
  { rewrite <- (length_map fst). fold (dict_keys (bodies_dict st)).
    destruct (Nat.lt_ge_cases (List.length (dict_keys (bodies_dict st)))
                (List.length bl)) as [Hlt|Hge]; [exact Hlt|].
    exfalso. apply Hdup.
    exact (NoDup_incl_NoDup N Hge I). }
  split.
  - exists tl, st. repeat split; assumption.
  - unfold __init__. rewrite HE, call_ok, bind_ok. cbn zeta.
    rewrite Hloop, bind_ok.
    destruct (np_max_spec (body_dist_list st)) as (m & -> & _).
    { intro E. rewrite E in L2. cbn [List.length] in L2.
      destruct bl; [apply Hdup; constructor | discriminate]. }
    rewrite bind_ret.
    assert (Hdf : pd_DataFrame (dict_keys (bodies_dict st))
                    (np_around (body_lon_list st)) (np_around (body_lat_list st))
                    (np_around2 (body_dist_list st))
                    (np_around (longsep_E_list st)) (np_around (latsep_E_list st))
                  = raise ValueError).
    { unfold pd_DataFrame, np_around, dict_keys. rewrite !length_map, L1.
      replace (List.length bl =? List.length (bodies_dict st))%nat with false
        by (symmetry; apply Nat.eqb_neq; lia).
      reflexivity. }
    rewrite Hdf. reflexivity.
Qed.

Lemma repeated_name_fails_witness :
  result (__init__ Scenario.catalog Scenario.ephemeris Scenario.date
            ["A"%string; "B"%string; "A"%string] [] None None) = Raise ValueError.
Proof.
  apply (repeated_name_fails Scenario.catalog Scenario.ephemeris Scenario.date
           ["A"%string; "B"%string; "A"%string] [] None None (mkSkyCoord 350 0 1)).
  - reflexivity.
  - reflexivity.
  - reflexivity.
  - intro H. inversion H as [|? ? Hn _]. apply Hn. simpl. tauto.
Defined.

(** ** What [plot] draws along the radius *)







(** ** The bodies and the radial limit *)




